(** * Smart chatbot: session protocol and backend adapters

    A shallow embedding of
    - [client/src/context/SocketContextProvider.jsx]: the socket session
      state machine of the browser client (module [Client]);
    - the EBSCO catalogue search adapter (module [Ebsco]);
    - the LibCal cancel-reservation tool (module [CancelReservation]).

    React state, refs, the session storage slot and the socket object are
    threaded explicitly through a [State] record.  Code that dereferences a
    possibly-null reference or that can throw returns [option] or
    [Outcome]. *)

From Stdlib Require QArith.
From stdpp Require Import base option list strings.

Local Open Scope string_scope.
Local Open Scope list_scope.

(** The line feed that ends the template literals of the source. *)
Definition nl : string := String (Ascii.ascii_of_nat 10) EmptyString.

(* ===================================================================== *)
(** * The browser client                                                  *)
(* ===================================================================== *)

Module Client.

(** ** Data *)

Inductive Sender := user | chatbot.

(** A message of the conversation log.  [id] is [None] for an object
    built without an id (JavaScript [undefined]). *)
Record Message := mkMessage {
  id : option string;
  text : string;
  sender : Sender;
}.

(** The six callbacks the effect creates, by the event they are written for. *)
Inductive Handler :=
| HConnect | HMessage | HUnexpectedError | HDisconnect
| HConnectError | HConnectTimeout.

(** Events the socket delivers to the client, with their argument. *)
Inductive Inbound :=
| EvConnect
| EvMessage (messageId : option string) (message : string)
| EvUnexpectedError (conversationHistory : string)
| EvDisconnect (reason : string)
| EvConnectError (error : string)
| EvConnectTimeout (timeout : string).

Definition event_name (ev : Inbound) : string :=
  match ev with
  | EvConnect => "connect"
  | EvMessage _ _ => "message"
  | EvUnexpectedError _ => "unexpected_error"
  | EvDisconnect _ => "disconnect"
  | EvConnectError _ => "connect_error"
  | EvConnectTimeout _ => "connect_timeout"
  end.

(** ** The socket object (socket.io-client)

    Only what the provider uses: the listener table of the emitter
    ([on] appends, [off(event)] drops every listener of the event, an
    event calls the listeners of its name in registration order), the
    [connected] flag, whether the socket is subscribed to its manager
    ([active]: set by [connect], cleared by [disconnect]), and the packets
    handed to [emit] (sent at once when connected, buffered until the next
    connection otherwise). *)
Record Socket := mkSocket {
  callbacks : list (string * Handler);
  connected : bool;
  active : bool;
  sent : list (string * string);
}.

(** [io(url, { transports: ['websocket'], upgrade: false })]: a fresh
    socket that starts connecting on its own. *)
Definition io : Socket := mkSocket [] false true [].

Definition on (event : string) (fn : Handler) (sk : Socket) : Socket :=
  mkSocket (callbacks sk ++ [(event, fn)]) (connected sk) (active sk) (sent sk).

Definition off (event : string) (sk : Socket) : Socket :=
  mkSocket (filter (λ c, c.1 ≠ event) (callbacks sk))
           (connected sk) (active sk) (sent sk).

Definition emit (event payload : string) (sk : Socket) : Socket :=
  mkSocket (callbacks sk) (connected sk) (active sk)
           (sent sk ++ [(event, payload)]).

(** [socket.connect()]: nothing when already connected, otherwise
    subscribes to the manager and opens. *)
Definition connect (sk : Socket) : Socket :=
  if connected sk then sk
  else mkSocket (callbacks sk) (connected sk) true (sent sk).

(** [destroy()], the first half of [socket.disconnect()]. *)
Definition destroy (sk : Socket) : Socket :=
  mkSocket (callbacks sk) (connected sk) false (sent sk).

Definition set_connected (b : bool) (sk : Socket) : Socket :=
  mkSocket (callbacks sk) b (active sk) (sent sk).

Definition listeners (event : string) (sk : Socket) : list Handler :=
  (filter (λ c, c.1 = event) (callbacks sk)).*2.

(** ** Client state *)

Record State := mkState {
  (* MessageContext *)
  messages : list Message;
  isTyping : bool;
  (* sessionStorage, slot 'chat_messages': the log last serialised *)
  chat_messages : option (list Message);
  (* SocketContextProvider *)
  socket : option Socket;          (* socket.current, null before the effect *)
  curSession : bool;               (* curSession.current *)
  isConnected : bool;
  attemptedConnection : bool;
  conversationHistory : string;
}.

Definition setIsConnected (b : bool) (s : State) : State :=
  mkState (messages s) (isTyping s) (chat_messages s) (socket s)
          (curSession s) b (attemptedConnection s) (conversationHistory s).

Definition setAttemptedConnection (b : bool) (s : State) : State :=
  mkState (messages s) (isTyping s) (chat_messages s) (socket s)
          (curSession s) (isConnected s) b (conversationHistory s).

Definition setConversationHistory (h : string) (s : State) : State :=
  mkState (messages s) (isTyping s) (chat_messages s) (socket s)
          (curSession s) (isConnected s) (attemptedConnection s) h.

Definition set_curSession (b : bool) (s : State) : State :=
  mkState (messages s) (isTyping s) (chat_messages s) (socket s)
          b (isConnected s) (attemptedConnection s) (conversationHistory s).

Definition set_socket (sk : option Socket) (s : State) : State :=
  mkState (messages s) (isTyping s) (chat_messages s) sk
          (curSession s) (isConnected s) (attemptedConnection s)
          (conversationHistory s).

Definition sessionStorage_setItem (log : list Message) (s : State) : State :=
  mkState (messages s) (isTyping s) (Some log) (socket s)
          (curSession s) (isConnected s) (attemptedConnection s)
          (conversationHistory s).

(** ** MessageContext *)

(** [setMessage(updater)]: the state setter of the log, called with a
    function of the previous log. *)
Definition setMessage (updater : list Message → list Message) (s : State) : State :=
  mkState (updater (messages s)) (isTyping s) (chat_messages s) (socket s)
          (curSession s) (isConnected s) (attemptedConnection s)
          (conversationHistory s).

Definition setIsTyping (b : bool) (s : State) : State :=
  mkState (messages s) b (chat_messages s) (socket s)
          (curSession s) (isConnected s) (attemptedConnection s)
          (conversationHistory s).

(** Modelled from the spec: [addMessage] of MessageContextProvider, whose
    file is not among the sources.  The spec's [append(message, sender,
    id?)] appends one message to the log and persists the full updated log
    to the session storage slot before returning. *)
Definition addMessage (message : string) (who : Sender) (mid : option string)
    (s : State) : State :=
  let updatedMessages := messages s ++ [mkMessage mid message who] in
  sessionStorage_setItem updatedMessages (setMessage (λ _, updatedMessages) s).

(** Modelled from the spec: [resetState] of MessageContextProvider, whose
    file is not among the sources.  The spec's [resetAll()] clears the log
    and the typing flag, and as a mutation of the log persists it.  It is a
    function of the message context: the history snapshot is a state of
    SocketContextProvider, out of its reach. *)
Definition resetState (s : State) : State :=
  sessionStorage_setItem [] (setIsTyping false (setMessage (λ _, []) s)).

(** ** The handlers registered by the effect *)

Definition welcomeMessage : Message :=
  mkMessage None "Hi this is the Library Smart Chatbot. How may I help you?" chatbot.

Definition errorMessage : string :=
  "Some unexpected errors happened. Please click the button at the bottom to continue your conversation with the real librarian." +:+ nl.

Definition on_connect (s : State) : State :=
  let s :=
    if curSession s then
      let updatedMessages := messages s ++ [welcomeMessage] in
      set_curSession false
        (sessionStorage_setItem updatedMessages
           (setMessage (λ prevMessages, prevMessages ++ [welcomeMessage]) s))
    else s in
  setIsTyping false (setAttemptedConnection true (setIsConnected true s)).

Definition on_message (messageId : option string) (message : string)
    (s : State) : State :=
  addMessage message chatbot messageId (setIsTyping false s).

Definition on_unexpected_error (history : string) (s : State) : State :=
  setIsConnected false
    (setConversationHistory history
       (addMessage errorMessage chatbot None (setIsTyping false s))).

(** [socket.current.connect()] dereferences the ref: [None] is the
    TypeError on a null ref. *)
Definition on_disconnect (reason : string) (s : State) : option State :=
  if decide (reason = "io client disconnect") then
    let s := set_curSession true (resetState s) in
    sk ← socket s;
    Some (set_socket (Some (connect sk)) s)
  else
    Some (setAttemptedConnection true (setIsConnected false s)).

Definition on_connect_error (s : State) : State :=
  setAttemptedConnection true (setIsConnected false s).

Definition on_connect_timeout (s : State) : State :=
  setAttemptedConnection true (setIsConnected false s).

(** Calling a listener with the argument of the event.  The effect
    registers every callback under its own event; the other pairings do
    not occur and are given no meaning. *)
Definition call (fn : Handler) (ev : Inbound) (s : State) : option State :=
  match fn, ev with
  | HConnect, EvConnect => Some (on_connect s)
  | HMessage, EvMessage messageId message => Some (on_message messageId message s)
  | HUnexpectedError, EvUnexpectedError h => Some (on_unexpected_error h s)
  | HDisconnect, EvDisconnect reason => on_disconnect reason s
  | HConnectError, EvConnectError _ => Some (on_connect_error s)
  | HConnectTimeout, EvConnectTimeout _ => Some (on_connect_timeout s)
  | _, _ => None
  end.

(** The emitter calls a copy of the listener list, in order; a listener
    that throws ends the round. *)
Fixpoint call_all (fns : list Handler) (ev : Inbound) (s : State) : option State :=
  match fns with
  | [] => Some s
  | fn :: fns => s' ← call fn ev s; call_all fns ev s'
  end.

Definition dispatch (ev : Inbound) (s : State) : option State :=
  sk ← socket s;
  call_all (listeners (event_name ev) sk) ev s.

(** An event arrives through the socket of the instance (without one
    there is nothing to deliver).  The socket sets its [connected] flag
    before it tells the listeners. *)
Definition deliver (ev : Inbound) (s : State) : option State :=
  sk ← socket s;
  let s :=
    match ev with
    | EvConnect => set_socket (Some (set_connected true sk)) s
    | EvDisconnect _ => set_socket (Some (set_connected false sk)) s
    | _ => s
    end in
  dispatch ev s.

Fixpoint run (evs : list Inbound) (s : State) : option State :=
  match evs with
  | [] => Some s
  | ev :: evs => s' ← deliver ev s; run evs s'
  end.

(** [socket.current.disconnect()]: leaves the manager and, when the socket
    was connected, closes with the reason 'io client disconnect', which
    the 'disconnect' listeners still attached receive. *)
Definition socket_disconnect (s : State) : option State :=
  sk ← socket s;
  let s := set_socket (Some (destroy sk)) s in
  if connected sk then deliver (EvDisconnect "io client disconnect") s
  else Some s.

(** ** The effect: mount and cleanup *)

Definition register (sk : Socket) : Socket :=
  on "connect_timeout" HConnectTimeout
    (on "connect_error" HConnectError
       (on "disconnect" HDisconnect
          (on "unexpected_error" HUnexpectedError
             (on "unexpected_error" HUnexpectedError
                (on "message" HMessage
                   (on "connect" HConnect sk)))))).

Definition useEffect (s : State) : State :=
  let s := set_socket (Some io) s in
  match socket s with
  | None => set_socket (Some io) s
  | Some sk => set_socket (Some (register sk)) s
  end.

Definition with_socket (f : Socket → Socket) (s : State) : option State :=
  sk ← socket s; Some (set_socket (Some (f sk)) s).

(** The function the effect returns, run on unmount. *)
Definition cleanup (s : State) : option State :=
  s ← with_socket (off "message") s;
  s ← with_socket (off "disconnect") s;
  s ← with_socket (off "connect_error") s;
  s ← with_socket (off "connect_timeout") s;
  s ← socket_disconnect s;
  socket_disconnect s.

(** ** Outbound operations *)

Definition sendUserMessage (message : string) (s : State) : State :=
  match socket s with
  | Some sk => set_socket (Some (emit "message" message sk)) s
  | None => s
  end.

Definition offlineTicketSubmit (formData : string) (s : State) : State :=
  match socket s with
  | Some sk => set_socket (Some (emit "createTicket" formData sk)) s
  | None => s
  end.

Definition sendMessageRating (messageRating : string) (s : State) : State :=
  match socket s with
  | Some sk => set_socket (Some (emit "messageRating" messageRating sk)) s
  | None => s
  end.

Definition sendUserFeedback (userFeedback : string) (s : State) : option State :=
  match socket s with
  | Some sk =>
      socket_disconnect (set_socket (Some (emit "userFeedback" userFeedback sk)) s)
  | None => Some s
  end.

(** The component at its first render, over a message context holding
    [log] and [typing] and a storage slot holding [stored]. *)
Definition initial (log : list Message) (typing : bool)
    (stored : option (list Message)) : State :=
  mkState log typing stored None true false false EmptyString.

(** A mounted instance: the ref holds a socket that carries exactly the
    listeners of the effect. *)
Definition Mounted (s : State) : Prop :=
  ∃ sk, socket s = Some sk ∧ callbacks sk = callbacks (register io).

(** ** Vocabulary of the statements *)

Definition reset_reason : string := "io client disconnect".

(** Every event but the disconnect the client asked for. *)
Definition transient (ev : Inbound) : Prop :=
  ev ≠ EvDisconnect reset_reason.

(** A lost connection or a failed attempt. *)
Definition failure (ev : Inbound) : Prop :=
  match ev with
  | EvDisconnect reason => reason ≠ reset_reason
  | EvConnectError _ | EvConnectTimeout _ => True
  | _ => False
  end.

Definition fallbackMessage : Message := mkMessage None errorMessage chatbot.

(** What the listeners of the backend's own events put in the log. *)
Definition delivered (ev : Inbound) : list Message :=
  match ev with
  | EvMessage messageId message => [mkMessage messageId message chatbot]
  | EvUnexpectedError _ => [fallbackMessage; fallbackMessage]
  | _ => []
  end.

Definition message_event (m : option string * string) : Inbound :=
  EvMessage m.1 m.2.

Definition chatbot_message (m : option string * string) : Message :=
  mkMessage m.1 m.2 chatbot.

(** A freshly mounted instance over an empty context. *)
Definition fresh : State := useEffect (initial [] false None).

(** The instance after the backend reported an unexpected error with the
    history "history": two fallback messages, the snapshot kept. *)
Definition escalated : State :=
  mkState [fallbackMessage; fallbackMessage] false
          (Some [fallbackMessage; fallbackMessage])
          (Some (register io)) true false false "history".

(** An instance in the middle of a conversation, connected. *)
Definition chatting : State :=
  mkState [welcomeMessage] false (Some [welcomeMessage])
          (Some (set_connected true (register io))) false true true EmptyString.

(** The events whose listeners the cleanup detaches. *)
Definition detached (ev : Inbound) : Prop :=
  match ev with
  | EvMessage _ _ | EvDisconnect _ | EvConnectError _ | EvConnectTimeout _ => True
  | EvConnect | EvUnexpectedError _ => False
  end.

(** What the user interface asks the provider to send, short of feedback. *)
Inductive Outbound :=
| OutMessage (message : string)
| OutTicket (formData : string)
| OutRating (messageRating : string).

Definition send (o : Outbound) (s : State) : State :=
  match o with
  | OutMessage message => sendUserMessage message s
  | OutTicket formData => offlineTicketSubmit formData s
  | OutRating messageRating => sendMessageRating messageRating s
  end.

Definition packet (o : Outbound) : string * string :=
  match o with
  | OutMessage message => ("message", message)
  | OutTicket formData => ("createTicket", formData)
  | OutRating messageRating => ("messageRating", messageRating)
  end.

End Client.

(* ===================================================================== *)
(** * JavaScript values shared by the backend adapters                    *)
(* ===================================================================== *)

Module Js.

(** A property that holds a string when it is there. *)
Inductive Value := undefined | null | str (s : string).

#[global] Instance Value_eq_dec : EqDecision Value.
Proof. solve_decision. Defined.

Definition truthy (v : Value) : bool :=
  match v with
  | str (String _ _) => true
  | _ => false
  end.

(** [a || b] *)
Definition or_else (a b : Value) : Value := if truthy a then a else b.

(** A value inside a template literal. *)
Definition template (v : Value) : string :=
  match v with
  | undefined => "undefined"
  | null => "null"
  | str s => s
  end.

Record Error := mkError { name : string; message : string }.

(** [new Error(message)] *)
Definition new_Error (msg : string) : Error := mkError "Error" msg.

(** The TypeError of reading a property of [undefined] or [null]. *)
Definition TypeError_reading (what prop : string) : Error :=
  mkError "TypeError"
    ("Cannot read properties of " +:+ what +:+ " (reading '" +:+ prop +:+ "')").

(** [String(error)], that is [Error.prototype.toString]. *)
Definition Error_toString (e : Error) : string :=
  match name e, message e with
  | EmptyString, msg => msg
  | n, EmptyString => n
  | n, msg => n +:+ ": " +:+ msg
  end.

(** What a call, or an awaited promise, comes to. *)
Inductive Outcome (A : Type) :=
| Return (a : A)
| Throw (e : Error).
Arguments Return {A} a.
Arguments Throw {A} e.

Definition bind {A B} (m : Outcome A) (k : A → Outcome B) : Outcome B :=
  match m with
  | Return a => k a
  | Throw e => Throw e
  end.

(** [await Promise.all(xs.map(f))] for an [f] that settles at once: the
    results in order, or the first rejection. *)
Fixpoint all {A B} (f : A → Outcome B) (xs : list A) : Outcome (list B) :=
  match xs with
  | [] => Return []
  | x :: xs => bind (f x) (λ y, bind (all f xs) (λ ys, Return (y :: ys)))
  end.

(** fp-ts [Either]: [inl] is [left], [inr] is [right]. *)
Definition Either (E A : Type) : Type := E + A.

End Js.

(* ===================================================================== *)
(** * The EBSCO catalogue search adapter                                  *)
(* ===================================================================== *)

Module Ebsco.
Import Js.

(** ** The shapes of [./Record], as the adapter reads them.  An optional
    chain [x?.p] in the source marks what may be missing. *)

Record Item := mkItem { Name : string; Data : Value }.

Record CopyInformation := mkCopyInformation {
  Sublocation : string;
  ShelfLocator : string;
}.

Record HoldingSimple_t := mkHoldingSimple {
  CopyInformationList : option (list CopyInformation);
}.

Record Holdings_t := mkHoldings { HoldingSimple : HoldingSimple_t }.

Record Header_t := mkHeader { PubType : Value }.

Record Record_t := mkRecord {
  Items : option (list Item);
  Header : option Header_t;
  Holdings : option (list Holdings_t);
}.

Record DisplayRecord := mkDisplayRecord {
  title : Value;
  author : Value;
  publicationYear : option nat;           (* [None] is NaN *)
  bookType : Value;
  subjects : Value;
  locationInformation : list CopyInformation;
}.

Record Data_t := mkData { Records : list (option Record_t) }.
Record SearchResult_t := mkSearchResult { Data_ : Data_t }.
Record SearchResponse := mkSearchResponse { SearchResult : SearchResult_t }.

(** ** Field extractors *)

(** [items] is [None] when it is not an array. *)
Definition extractItemData (items : option (list Item)) (name : string) : Value :=
  match items with
  | None | Some [] => str "Not available"
  | Some items =>
      let item := List.find (λ i, bool_decide (Name i = name)) items in
      or_else (match item with Some i => Data i | None => undefined end)
              (str "Not available")
  end.

Definition is_digit (c : Ascii.ascii) : bool :=
  let n := Ascii.nat_of_ascii c in (48 <=? n)%nat && (n <=? 57)%nat.

Definition digit (c : Ascii.ascii) : nat := Ascii.nat_of_ascii c - 48.

(** [titleSource.match(/(\d{4})/)] then [Number(match[1])]: the first four
    decimal digits in a row. *)
Fixpoint match_year (s : string) : option nat :=
  match s with
  | EmptyString => None
  | String a rest =>
      match rest with
      | String b (String c (String d _)) =>
          if is_digit a && is_digit b && is_digit c && is_digit d
          then Some (1000 * digit a + 100 * digit b + 10 * digit c + digit d)
          else match_year rest
      | _ => None
      end
  end.

Definition extractPublicationYear (items : option (list Item)) : Outcome (option nat) :=
  match items with
  | None | Some [] => Return None
  | Some _ =>
      match extractItemData items "TitleSource" with
      | str titleSource => Return (match_year titleSource)
      | undefined => Throw (TypeError_reading "undefined" "match")
      | null => Throw (TypeError_reading "null" "match")
      end
  end.

Definition extractSubjects (items : option (list Item)) : Value :=
  match items with
  | None | Some [] => str "Not available"
  | Some _ =>
      let subjectData := extractItemData items "Subject" in
      if truthy subjectData then subjectData else str "Not available"
  end.

(** An array is truthy, so the fallback of the last line is never taken. *)
Definition extractLocationInformation (record : option Record_t) : list CopyInformation :=
  let locationInformation :=
    match record ≫= Holdings with
    | Some holdings =>
        let firstHolding := holdings !! 0%nat in
        match firstHolding ≫= (λ h, CopyInformationList (HoldingSimple h)) with
        | Some copyInformationList => copyInformationList
        | None => []
        end
    | None => []
    end in
  locationInformation.

(** [record] is [None] for a null or undefined entry of the payload:
    [record?.Items] tolerates it, [record.Header] does not. *)
Definition transformToDisplayRecord (record : option Record_t) : Outcome DisplayRecord :=
  let items := Some (default [] (record ≫= Items)) in
  let title := extractItemData items "Title" in
  let author := extractItemData items "Author" in
  bind (extractPublicationYear items) (λ publicationYear,
  match record with
  | None => Throw (TypeError_reading "undefined" "Header")
  | Some r =>
      let bookType :=
        or_else (match Header r with Some h => PubType h | None => undefined end)
                (str "Not available") in
      let subjects := extractSubjects items in
      let locationInformation := extractLocationInformation record in
      Return (mkDisplayRecord title author publicationYear bookType subjects
                              locationInformation)
  end).

(** [item] is the first element of [items] called [name]. *)
Definition first_named (name : string) (items : list Item) (item : Item) : Prop :=
  ∃ before after,
    items = before ++ item :: after
    ∧ Name item = name
    ∧ ∀ i, i ∈ before → Name i ≠ name.

(** The value [Number] reads off four decimal digits. *)
Definition year_of (a b c d : Ascii.ascii) : nat :=
  1000 * digit a + 100 * digit b + 10 * digit c + digit d.

(** [s] has four decimal digits in a row after [pre]. *)
Definition digits_at (s pre : string) (a b c d : Ascii.ascii) : Prop :=
  (∃ post, s = pre +:+ String a (String b (String c (String d post))))
  ∧ is_digit a = true ∧ is_digit b = true
  ∧ is_digit c = true ∧ is_digit d = true.

(** ** The search *)

Section Search.

(** The collaborators of [./accessEBSCOAPI] and [./ebscoService]. *)
Variable getEnvironmentVariables : Outcome unit.
Variable performSearch : string → string → Z → Outcome (Either Error SearchResponse).
Variable endSession : string → Outcome unit.

Definition queryEbscoApi (query sessionToken : string) (numOfBooks : Z)
    : Outcome (Either Error (list DisplayRecord)) :=
  bind getEnvironmentVariables (λ _,
  bind (performSearch sessionToken query numOfBooks) (λ responseResult,
  match responseResult with
  | inl e => Return (inl e)
  | inr response =>
      match all transformToDisplayRecord (Records (Data_ (SearchResult response))) with
      | Throw error => Return (inl error)
      | Return data =>
          bind (endSession sessionToken) (λ _, Return (inr data))
      end
  end)).

Definition searchForBook (query sessionToken : string) (numOfBooks : Z)
    : Outcome (list DisplayRecord) :=
  bind (queryEbscoApi query sessionToken numOfBooks) (λ dataResult,
  match dataResult with
  | inl _ => Throw (new_Error "No results found due to an error.")
  | inr data =>
      if (0 <? length data)%nat then Return data
      else Throw (new_Error "No results found")
  end).

End Search.

End Ebsco.

(* ===================================================================== *)
(** * The cancel-reservation tool                                         *)
(* ===================================================================== *)

Module CancelReservation.
Import Js.

(** One entry of [LibcalAPICancelReservationResponse]. *)
Record CancelEntry := mkCancelEntry {
  booking_id : string;
  cancelled : bool;
  error : Value;                       (* [error?: string] *)
}.

(** What the service does to the outside, in order. *)
Inductive Effect :=
| HttpPost (url : string) (authorization : string)
| LoggerError (e : Error).

(** A computation of the service: the effects performed, and how it ends. *)
Definition M (A : Type) : Type := list Effect * Outcome A.

Definition ret {A} (a : A) : M A := ([], Return a).
Definition throw {A} (e : Error) : M A := ([], Throw e).
Definition bindM {A B} (m : M A) (k : A → M B) : M B :=
  match m with
  | (t, Return a) => let '(t', r) := k a in (t ++ t', r)
  | (t, Throw e) => (t, Throw e)
  end.
(** [try { m } catch (error) { h error }] *)
Definition try_catch {A} (m : M A) (h : Error → M A) : M A :=
  match m with
  | (t, Return a) => (t, Return a)
  | (t, Throw e) => let '(t', r) := h e in (t ++ t', r)
  end.
Definition logger_error (e : Error) : M unit := ([LoggerError e], Return tt).

(** The fields of the service the tool reads. *)
Record Service := mkService {
  CANCEL_URL : string;
  accessToken : string;
}.

(** [{ success, error }] as [run] returns it. *)
Record RunResult := mkRunResult { success : bool; run_error : Value }.

Section Tool.

(** [httpService.axiosRef.post(url, {}, { headers })]: the [data] of the
    response, or the rejection. *)
Variable post : string → string → Outcome (list CancelEntry).

Definition http_post (url authorization : string) : M (list CancelEntry) :=
  ([HttpPost url authorization], post url authorization).

Definition run (this : Service) (bookingID : string) : M RunResult :=
  let header := "Bearer " +:+ accessToken this in
  try_catch
    (bindM (http_post (CANCEL_URL this +:+ "/" +:+ bookingID) header) (λ data,
     match data !! 0%nat with
     | None => throw (TypeError_reading "undefined" "cancelled")
     | Some entry =>
         if cancelled entry then ret (mkRunResult true null)
         else ret (mkRunResult false (error entry))
     end))
    (λ error, bindM (logger_error error) (λ _,
              throw (new_Error (Error_toString error)))).

Definition missing_bookingID : string :=
  "Cannot perform booking because missing parameter bookingID. Ask the customer to provide bookingID to perform booking" +:+ nl.

(** The test that opens [toolRunForLlm], on [toolInput.bookingID]. *)
Definition absent (bookingID : Value) : Prop :=
  bookingID = null ∨ bookingID = str "null"
  ∨ bookingID = undefined ∨ bookingID = str "undefined".

(** Past the test [bookingID] is a string, and is only ever spliced into
    template literals. *)
Definition toolRunForLlm (this : Service) (bookingID : Value) : M string :=
  if decide (absent bookingID) then ret missing_bookingID
  else
    let bookingID := template bookingID in
    try_catch
      (bindM (run this bookingID) (λ response,
       if success response then
         ret ("Room reservation with ID: " +:+ bookingID
              +:+ " is cancelled successfully" +:+ nl)
       else
         ret ("Room reservation with ID: " +:+ bookingID
              +:+ " is not cancelled successfully. Error message: "
              +:+ template (run_error response) +:+ nl)))
      (λ error, bindM (logger_error error) (λ _, throw error)).

End Tool.

(** A LibCal endpoint that is down, and a service to call it. *)
Definition unreachable : string → string → Outcome (list CancelEntry) :=
  λ _ _, Throw (mkError "AxiosError" "Request failed with status code 500").

Definition service : Service := mkService "https://libcal.example/cancel" "token".

(** ** The access token

    The constructor subscribes to the token observable of the LibCal
    authorization service; every token it emits while the subscription
    lasts replaces [accessToken]; [onModuleDestroy] ends the subscription. *)
Record Instance := mkInstance {
  this : Service;
  tokenSubscription : bool;            (* still subscribed *)
}.

Definition constructor (cancel_url : string) : Instance :=
  mkInstance (mkService cancel_url EmptyString) true.

(** The observable emits [token]. *)
Definition next (i : Instance) (token : string) : Instance :=
  if tokenSubscription i
  then mkInstance (mkService (CANCEL_URL (this i)) token) true
  else i.

Definition onModuleDestroy (i : Instance) : Instance :=
  mkInstance (this i) false.

Definition is_post (e : Effect) : bool :=
  match e with
  | HttpPost _ _ => true
  | LoggerError _ => false
  end.

End CancelReservation.

(* ===================================================================== *)
(** * Promises made with an async executor                                *)
(* ===================================================================== *)

Module Promises.
Import Js.

(** What a promise is rejected with: an error object or a bare string. *)
Inductive Reason := Err (e : Error) | Text (s : string).

Inductive Promise (A : Type) :=
| Resolved (a : A)
| Rejected (r : Reason)
| Pending.
Arguments Resolved {A} a.
Arguments Rejected {A} r.
Arguments Pending {A}.

(** How the body of an executor [async (resolve, reject) => { ... }] ends:
    it called [resolve], it called [reject], or it threw (an awaited
    rejection throws). *)
Inductive Executor (A : Type) :=
| Resolve (a : A)
| Reject (r : Reason)
| Threw (e : Error).
Arguments Resolve {A} a.
Arguments Reject {A} r.
Arguments Threw {A} e.

(** [new Promise(async (resolve, reject) => body)]: the constructor drops
    the promise the async executor returns, so an executor that throws
    settles nothing. *)
Definition new_Promise {A} (body : Executor A) : Promise A :=
  match body with
  | Resolve a => Resolved a
  | Reject r => Rejected r
  | Threw _ => Pending
  end.

(** [await] inside an executor. *)
Definition await {A B} (m : Outcome A) (k : A → Executor B) : Executor B :=
  match m with
  | Return a => k a
  | Throw e => Threw e
  end.

End Promises.

(* ===================================================================== *)
(** * LlmService                                                          *)
(* ===================================================================== *)

Module Llm.
Import Js Promises.

(** [temperature] and [top_p] are only handed on; the literals 0.0 and 0.1
    are read as the rationals they denote. *)
Definition number : Type := QArith_base.Q.

Definition zero : number := QArith_base.Qmake 0 1.
Definition one_tenth : number := QArith_base.Qmake 1 10.

Definition openaiModelNameList : list string :=
  ["gpt-3.5-turbo"; "gpt-3.5-turbo-0613"; "gpt-3.5-turbo-0301";
   "gpt-4-0613"; "gpt-4-0314"; "gpt-4"].

Section Service.

(** [TokenUsage] and the collaborators: the prompt object, the OpenAI
    service behind [LlmInterface] and the token usage service. *)
Variable TokenUsage : Type.

Record Prompt := mkPrompt {
  getPrompt : Outcome (string * TokenUsage);
  getSystemDescription : string;
}.

(** A call of [LlmInterface.getModelResponse]. *)
Record ModelCall := mkModelCall {
  call_prompt : string;
  call_systemDescription : string;
  call_temperature : number;
  call_top_p : number;
}.

Definition LlmInterface : Type := ModelCall → Outcome (string * TokenUsage).

Variable openaiApiService : LlmInterface.
Variable combineTokenUsage : TokenUsage → TokenUsage → TokenUsage.

(** What the service does to the outside, in order. *)
Inductive Effect :=
| LoggerError (msg : string)
| PromptAsked
| ModelAsked (c : ModelCall).

Definition getModel (modelName : string) : list Effect * Outcome LlmInterface :=
  if bool_decide (modelName ∈ openaiModelNameList) then
    ([], Return openaiApiService)
  else
    let errorMsg := "No model name " +:+ modelName in
    ([LoggerError errorMsg], Throw (new_Error errorMsg)).

(** The executor of [getModelResponse], with the effects it performed. *)
Definition executor (promptObject : Prompt) (modelName : string)
    (temperature top_p : number)
    : list Effect * Executor (string * TokenUsage) :=
  match getModel modelName with
  | (t, Throw e) => (t, Threw e)
  | (t, Return model) =>
      match getPrompt promptObject with
      | Throw e => (t ++ [PromptAsked], Threw e)
      | Return (prompt, promptTokenUsage) =>
          let c := mkModelCall prompt (getSystemDescription promptObject)
                               temperature top_p in
          (t ++ [PromptAsked; ModelAsked c],
           await (model c) (λ '(response, responseTokenUsage),
             Resolve (response,
                      combineTokenUsage promptTokenUsage responseTokenUsage)))
      end
  end.

(** [None] for an argument left out: the defaults are 'gpt-4', 0.0 and 0.1. *)
Definition getModelResponse (promptObject : Prompt) (modelName : option string)
    (temperature top_p : option number)
    : list Effect * Promise (string * TokenUsage) :=
  let '(t, body) :=
    executor promptObject (default "gpt-4" modelName)
             (default zero temperature) (default one_tenth top_p) in
  (t, new_Promise body).

End Service.

End Llm.

(* ===================================================================== *)
(** * OpenAIModel, with its cache                                         *)
(* ===================================================================== *)

Module OpenAIModel.
Import Js Promises.

Section Model.

(** [usage] is typed [any]. *)
Variable Usage : Type.

Record ChatMessage := mkChatMessage { content : Value }.
Record Choice := mkChoice { message : option ChatMessage }.

(** [response.data] *)
Record Completion := mkCompletion {
  choices : list Choice;
  usage : Usage;
}.

Record Request := mkRequest {
  model : string;
  req_temperature : QArith_base.Q;
  messages : list (string * string);      (* role, content *)
}.

Record PromptTemplate := mkPromptTemplate {
  getPrompt : Outcome string;
  getSystemDescription : string;
  toString : string;
}.

(** What [getModelResponse] resolves with. *)
Record Answer := mkAnswer { response : Value; answer_usage : Usage }.

Variable createChatCompletion : Request → Outcome Completion.

Definition modelName : string := "gpt-4-0613".

Inductive Effect :=
| ChatCompletion (r : Request)
| CacheGet (key : string)
| CacheSet (key : string) (a : Answer).

(** [this.temperature] is the only field the calls read. *)
Definition getModelResponse (temperature : QArith_base.Q)
    (promptObject : PromptTemplate)
    : list Effect * Promise Answer :=
  match getPrompt promptObject with
  | Throw e => ([], new_Promise (Threw e))
  | Return prompt =>
      let request :=
        mkRequest modelName temperature
          [("system", getSystemDescription promptObject); ("user", prompt)] in
      ([ChatCompletion request],
       new_Promise
         (await (createChatCompletion request) (λ response,
          match choices response !! 0%nat with
          | None => Threw (TypeError_reading "undefined" "message")
          | Some choice =>
              let content :=
                match message choice with
                | Some m => content m
                | None => undefined
                end in
              if truthy content
              then Resolve (mkAnswer content (usage response))
              else Reject (Text "No response from model")
          end)))
  end.

(** The cache service, whose class is not among the sources: a state,
    [get] answering with a stored answer or null ([None]), [set] giving the
    next state; both may reject. *)
Variable Cache : Type.
Variable cache_get : Cache → string → Outcome (option Answer).
Variable cache_set : Cache → string → Answer → Cache * Outcome unit.

Definition getModelResponseWithCache (temperature : QArith_base.Q)
    (prompt : PromptTemplate)
    (cache : Cache) : Cache * list Effect * Promise Answer :=
  let key := toString prompt in
  match cache_get cache key with
  | Throw e => (cache, [CacheGet key], Rejected (Err e))
  | Return (Some result) => (cache, [CacheGet key], Resolved result)
  | Return None =>
      let '(t, p) := getModelResponse temperature prompt in
      match p with
      | Pending => (cache, CacheGet key :: t, Pending)
      | Rejected r => (cache, CacheGet key :: t, Rejected r)
      | Resolved result =>
          let '(cache', set) := cache_set cache key result in
          (cache', CacheGet key :: t ++ [CacheSet key result],
           match set with
           | Return _ => Resolved result
           | Throw e => Rejected (Err e)
           end)
      end
  end.

End Model.

(** A cache that keeps every answer it was given, the newest first. *)
Definition store_get {Usage} (cache : list (string * Answer Usage)) (key : string)
    : Outcome (option (Answer Usage)) :=
  Return (snd <$> List.find (λ kv, bool_decide (kv.1 = key)) cache).

Definition store_set {Usage} (cache : list (string * Answer Usage)) (key : string)
    (a : Answer Usage) : list (string * Answer Usage) * Outcome unit :=
  ((key, a) :: cache, Return ()).

Definition is_completion {Usage} (e : Effect Usage) : bool :=
  match e with
  | ChatCompletion _ _ => true
  | _ => false
  end.

End OpenAIModel.

(* ===================================================================== *)
(** * The earlier socket provider                                         *)
(* ===================================================================== *)

(** The provider as it stands at the head of the file that also holds the
    cancel-reservation tool: the ref is [firstSession], the effect depends
    on [isConnected] and creates the socket only when there is none, the
    'message' event carries the text alone, and no disconnect resets. *)
Module LegacyClient.

Inductive Inbound :=
| EvConnect
| EvMessage (message : string)
| EvDisconnect (reason : string)
| EvConnectError (error : string)
| EvConnectTimeout (timeout : string).

Definition event_name (ev : Inbound) : string :=
  match ev with
  | EvConnect => "connect"
  | EvMessage _ => "message"
  | EvDisconnect _ => "disconnect"
  | EvConnectError _ => "connect_error"
  | EvConnectTimeout _ => "connect_timeout"
  end.

Record State := mkState {
  (* MessageContext *)
  messages : list Client.Message;
  isTyping : bool;
  (* sessionStorage, slot 'chat_messages' *)
  chat_messages : option (list Client.Message);
  (* SocketContextProvider *)
  socket : option Client.Socket;
  firstSession : bool;
  isConnected : bool;
  attemptedConnection : bool;
}.

Definition setIsConnected (b : bool) (s : State) : State :=
  mkState (messages s) (isTyping s) (chat_messages s) (socket s)
          (firstSession s) b (attemptedConnection s).

Definition setAttemptedConnection (b : bool) (s : State) : State :=
  mkState (messages s) (isTyping s) (chat_messages s) (socket s)
          (firstSession s) (isConnected s) b.

Definition set_firstSession (b : bool) (s : State) : State :=
  mkState (messages s) (isTyping s) (chat_messages s) (socket s)
          b (isConnected s) (attemptedConnection s).

Definition set_socket (sk : option Client.Socket) (s : State) : State :=
  mkState (messages s) (isTyping s) (chat_messages s) sk
          (firstSession s) (isConnected s) (attemptedConnection s).

Definition sessionStorage_setItem (log : list Client.Message) (s : State) : State :=
  mkState (messages s) (isTyping s) (Some log) (socket s)
          (firstSession s) (isConnected s) (attemptedConnection s).

Definition setMessage (updater : list Client.Message → list Client.Message)
    (s : State) : State :=
  mkState (updater (messages s)) (isTyping s) (chat_messages s) (socket s)
          (firstSession s) (isConnected s) (attemptedConnection s).

Definition setIsTyping (b : bool) (s : State) : State :=
  mkState (messages s) b (chat_messages s) (socket s)
          (firstSession s) (isConnected s) (attemptedConnection s).

(** Modelled from the spec: [addMessage] of MessageContextProvider, whose
    file is not among the sources; one message appended, the log persisted
    (as for the later provider). *)
Definition addMessage (message : string) (who : Client.Sender) (s : State) : State :=
  let updatedMessages := messages s ++ [Client.mkMessage None message who] in
  sessionStorage_setItem updatedMessages (setMessage (λ _, updatedMessages) s).

Definition on_connect (s : State) : State :=
  let s :=
    if firstSession s then
      let updatedMessages := messages s ++ [Client.welcomeMessage] in
      set_firstSession false
        (sessionStorage_setItem updatedMessages
           (setMessage (λ prevMessages, prevMessages ++ [Client.welcomeMessage]) s))
    else s in
  setIsTyping false (setAttemptedConnection true (setIsConnected true s)).

Definition on_message (message : string) (s : State) : State :=
  addMessage message Client.chatbot (setIsTyping false s).

Definition on_disconnect (s : State) : State :=
  setAttemptedConnection true (setIsConnected false s).

(** The two error listeners also write to the console. *)
Definition on_connect_error (s : State) : State :=
  setAttemptedConnection true (setIsConnected false s).

Definition on_connect_timeout (s : State) : State :=
  setAttemptedConnection true (setIsConnected false s).

Definition call (fn : Client.Handler) (ev : Inbound) (s : State) : option State :=
  match fn, ev with
  | Client.HConnect, EvConnect => Some (on_connect s)
  | Client.HMessage, EvMessage message => Some (on_message message s)
  | Client.HDisconnect, EvDisconnect _ => Some (on_disconnect s)
  | Client.HConnectError, EvConnectError _ => Some (on_connect_error s)
  | Client.HConnectTimeout, EvConnectTimeout _ => Some (on_connect_timeout s)
  | _, _ => None
  end.

Fixpoint call_all (fns : list Client.Handler) (ev : Inbound) (s : State)
    : option State :=
  match fns with
  | [] => Some s
  | fn :: fns => s' ← call fn ev s; call_all fns ev s'
  end.

Definition deliver (ev : Inbound) (s : State) : option State :=
  sk ← socket s;
  let sk :=
    match ev with
    | EvConnect => Client.set_connected true sk
    | EvDisconnect _ => Client.set_connected false sk
    | _ => sk
    end in
  call_all (Client.listeners (event_name ev) sk) ev (set_socket (Some sk) s).

Fixpoint run (evs : list Inbound) (s : State) : option State :=
  match evs with
  | [] => Some s
  | ev :: evs => s' ← deliver ev s; run evs s'
  end.

Definition register (sk : Client.Socket) : Client.Socket :=
  Client.on "connect_timeout" Client.HConnectTimeout
    (Client.on "connect_error" Client.HConnectError
       (Client.on "disconnect" Client.HDisconnect
          (Client.on "message" Client.HMessage
             (Client.on "connect" Client.HConnect sk)))).

(** One run of the effect; the flag tells whether it returned a cleanup. *)
Definition useEffect (s : State) : State * bool :=
  match socket s with
  | None => (set_socket (Some Client.io) s, false)
  | Some sk => (set_socket (Some (register sk)) s, true)
  end.

Definition cleanup (s : State) : option State :=
  sk ← socket s;
  Some (set_socket
          (Some (Client.off "connect_timeout"
                   (Client.off "connect_error"
                      (Client.off "disconnect"
                         (Client.off "message" sk))))) s).

(** A change of [isConnected] makes the effect run again: the cleanup of
    the last run, when there was one, then the effect. *)
Definition rerun (s : State) : option State :=
  s ← cleanup s; Some (useEffect s).1.

Fixpoint reruns (n : nat) (s : State) : option State :=
  match n with
  | 0 => Some s
  | S n => s ← rerun s; reruns n s
  end.

(** [emit("message", message, () => {})] *)
Definition sendUserMessage (message : string) (s : State) : State :=
  match socket s with
  | Some sk => set_socket (Some (Client.emit "message" message sk)) s
  | None => s
  end.

(** The component at its first render. *)
Definition initial (log : list Client.Message) (typing : bool)
    (stored : option (list Client.Message)) : State :=
  mkState log typing stored None true false false.

(** What the user interface can see. *)
Definition view (s : State)
    : list Client.Message * bool * option (list Client.Message) * bool * bool * bool :=
  (messages s, isTyping s, chat_messages s, firstSession s, isConnected s,
   attemptedConnection s).

(** The listeners one registering run of the effect adds. *)
Definition registered : list (string * Client.Handler) :=
  Client.callbacks (register Client.io).

Definition connect_listener : string * Client.Handler :=
  ("connect", Client.HConnect).

(** The socket after [n] cleanups each followed by a registering run. *)
Definition Registered (n : nat) (s : State) : Prop :=
  ∃ sk, socket s = Some sk
        ∧ Client.callbacks sk = replicate n connect_listener ++ registered.

End LegacyClient.

(* ===================================================================== *)
(** * Properties of the client                                            *)
(* ===================================================================== *)

Module ClientProofs.
Import Client.

(** ** The listener table of a mounted instance *)

Lemma listeners_mounted sk event :
  callbacks sk = callbacks (register io) →
  listeners event sk = listeners event (register io).
Proof. intros H. unfold listeners. by rewrite H. Qed.

Lemma listeners_connect : listeners "connect" (register io) = [HConnect].
Proof. reflexivity. Qed.
Lemma listeners_message : listeners "message" (register io) = [HMessage].
Proof. reflexivity. Qed.
Lemma listeners_unexpected_error :
  listeners "unexpected_error" (register io) = [HUnexpectedError; HUnexpectedError].
Proof. reflexivity. Qed.
Lemma listeners_disconnect : listeners "disconnect" (register io) = [HDisconnect].
Proof. reflexivity. Qed.
Lemma listeners_connect_error :
  listeners "connect_error" (register io) = [HConnectError].
Proof. reflexivity. Qed.
Lemma listeners_connect_timeout :
  listeners "connect_timeout" (register io) = [HConnectTimeout].
Proof. reflexivity. Qed.

Lemma useEffect_mounted s : Mounted (useEffect s).
Proof. eexists. split; reflexivity. Qed.

(** ** What each event does to a mounted instance *)

Lemma deliver_connect s sk :
  socket s = Some sk → callbacks sk = callbacks (register io) →
  deliver EvConnect s
  = Some (on_connect (set_socket (Some (set_connected true sk)) s)).
Proof.
  intros Hs Hc. unfold deliver, dispatch. rewrite Hs. simpl.
  rewrite (listeners_mounted (set_connected true sk)), listeners_connect; done.
Qed.

Lemma deliver_message s sk messageId message :
  socket s = Some sk → callbacks sk = callbacks (register io) →
  deliver (EvMessage messageId message) s = Some (on_message messageId message s).
Proof.
  intros Hs Hc. unfold deliver, dispatch. rewrite Hs. simpl.
  rewrite (listeners_mounted sk), listeners_message; done.
Qed.

Lemma deliver_unexpected_error s sk history :
  socket s = Some sk → callbacks sk = callbacks (register io) →
  deliver (EvUnexpectedError history) s
  = Some (on_unexpected_error history (on_unexpected_error history s)).
Proof.
  intros Hs Hc. unfold deliver, dispatch. rewrite Hs. simpl.
  rewrite (listeners_mounted sk), listeners_unexpected_error; done.
Qed.

Lemma deliver_disconnect s sk reason :
  socket s = Some sk → callbacks sk = callbacks (register io) →
  deliver (EvDisconnect reason) s
  = on_disconnect reason (set_socket (Some (set_connected false sk)) s).
Proof.
  intros Hs Hc. unfold deliver, dispatch. rewrite Hs. simpl.
  rewrite (listeners_mounted (set_connected false sk)), listeners_disconnect; [|done].
  simpl. by destruct (on_disconnect _ _).
Qed.

Lemma deliver_connect_error s sk error :
  socket s = Some sk → callbacks sk = callbacks (register io) →
  deliver (EvConnectError error) s = Some (on_connect_error s).
Proof.
  intros Hs Hc. unfold deliver, dispatch. rewrite Hs. simpl.
  rewrite (listeners_mounted sk), listeners_connect_error; done.
Qed.

Lemma deliver_connect_timeout s sk timeout :
  socket s = Some sk → callbacks sk = callbacks (register io) →
  deliver (EvConnectTimeout timeout) s = Some (on_connect_timeout s).
Proof.
  intros Hs Hc. unfold deliver, dispatch. rewrite Hs. simpl.
  rewrite (listeners_mounted sk), listeners_connect_timeout; done.
Qed.

(** ** Steps and runs *)

#[local] Arguments deliver : simpl never.

Lemma run_app evs1 evs2 s :
  run (evs1 ++ evs2) s = run evs1 s ≫= run evs2.
Proof.
  revert s. induction evs1 as [|ev evs1 IH]; intros s; simpl; [done|].
  destruct (deliver ev s) as [s'|]; simpl; [apply IH | done].
Qed.

(** The first connection of a session: the welcome goes in, the session is
    disarmed. *)
Lemma deliver_connect_armed s :
  Mounted s → curSession s = true →
  ∃ s', deliver EvConnect s = Some s' ∧ Mounted s'
        ∧ messages s' = messages s ++ [welcomeMessage]
        ∧ curSession s' = false.
Proof.
  intros (sk & Hs & Hc) Hcur. eexists. split; [by apply deliver_connect|].
  unfold on_connect. simpl. rewrite Hcur. simpl.
  split; [|done]. by exists (set_connected true sk).
Qed.

(** Any other step of a session: the log grows by what the backend
    delivered, the session flag stays. *)
Lemma deliver_step s ev :
  Mounted s → transient ev → curSession s = false ∨ ev ≠ EvConnect →
  ∃ s', deliver ev s = Some s' ∧ Mounted s'
        ∧ messages s' = messages s ++ delivered ev
        ∧ curSession s' = curSession s.
Proof.
  intros (sk & Hs & Hc) Htr Hcase.
  destruct ev as [|messageId message|history|reason|error|timeout].
  - destruct Hcase as [Hcur|]; [|done].
    eexists. split; [by apply deliver_connect|].
    unfold on_connect. simpl. rewrite Hcur. simpl.
    rewrite app_nil_r. split; [|done]. by exists (set_connected true sk).
  - eexists. split; [by apply (deliver_message s sk)|]. simpl.
    split; [|done]. by exists sk.
  - eexists. split; [by apply (deliver_unexpected_error s sk)|]. simpl.
    rewrite <- app_assoc. split; [|done]. by exists sk.
  - rewrite (deliver_disconnect s sk) by done. unfold on_disconnect.
    destruct (decide (reason = "io client disconnect")) as [->|Hne]; [done|].
    eexists. split; [done|]. simpl. rewrite app_nil_r.
    split; [|done]. by exists (set_connected false sk).
  - eexists. split; [by apply (deliver_connect_error s sk)|]. simpl.
    rewrite app_nil_r. split; [|done]. by exists sk.
  - eexists. split; [by apply (deliver_connect_timeout s sk)|]. simpl.
    rewrite app_nil_r. split; [|done]. by exists sk.
Qed.

Lemma run_steps evs : ∀ s,
  Mounted s → Forall transient evs → curSession s = false ∨ EvConnect ∉ evs →
  ∃ s', run evs s = Some s' ∧ Mounted s'
        ∧ messages s' = messages s ++ flat_map delivered evs
        ∧ curSession s' = curSession s.
Proof.
  induction evs as [|ev evs IH]; intros s Hm Htr Hcase; simpl.
  - exists s. by rewrite app_nil_r.
  - apply Forall_cons in Htr as [Hev Htr].
    destruct (deliver_step s ev Hm Hev) as (s1 & Hd & Hm1 & Hlog1 & Hcur1).
    { destruct Hcase as [?|Hnot]; [by left|]. right. intros ->. apply Hnot. left. }
    destruct (IH s1 Hm1 Htr) as (s2 & Hr & Hm2 & Hlog2 & Hcur2).
    { destruct Hcase as [?|Hnot]; [left; congruence|]. right. intros Hin.
      apply Hnot. by right. }
    exists s2. rewrite Hd. simpl. split; [done|]. split; [done|].
    rewrite Hlog2, Hlog1, <- app_assoc. split; [done | congruence].
Qed.

(** ** The welcome message *)

(** C1. In a session that starts armed and sees no client-requested
    disconnect, whatever the number of lost connections and reconnections:
    the first 'connect' appends the welcome message and disarms the
    session, and from then on the log only grows by what the backend
    delivers, so the welcome message is appended exactly once. *)
Theorem welcome_once_per_session s pre post :
  Mounted s → curSession s = true →
  Forall transient (pre ++ EvConnect :: post) → EvConnect ∉ pre →
  ∃ s1 s2 s3,
    run pre s = Some s1 ∧ deliver EvConnect s1 = Some s2 ∧ run post s2 = Some s3
    ∧ run (pre ++ EvConnect :: post) s = Some s3
    ∧ messages s1 = messages s ++ flat_map delivered pre ∧ curSession s1 = true
    ∧ messages s2 = messages s1 ++ [welcomeMessage] ∧ curSession s2 = false
    ∧ messages s3 = messages s2 ++ flat_map delivered post ∧ curSession s3 = false.
Proof.
  intros Hm Hcur Htr Hpre.
  apply Forall_app in Htr as [Htr1 Htr2]. apply Forall_cons in Htr2 as [_ Htr2].
  destruct (run_steps pre s Hm Htr1) as (s1 & Hr1 & Hm1 & Hlog1 & Hcur1); [by right|].
  rewrite Hcur in Hcur1.
  destruct (deliver_connect_armed s1 Hm1 Hcur1) as (s2 & Hd & Hm2 & Hlog2 & Hcur2).
  destruct (run_steps post s2 Hm2 Htr2) as (s3 & Hr3 & Hm3 & Hlog3 & Hcur3); [by left|].
  exists s1, s2, s3. repeat split; try done; [|congruence].
  rewrite run_app, Hr1. simpl. by rewrite Hd.
Qed.

Lemma welcome_once_per_session_witness :
  let pre := [EvConnectError "xhr poll error"] in
  let post := [EvDisconnect "transport close"; EvConnect;
               EvMessage (Some "42") "Try the 2nd floor.";
               EvDisconnect "ping timeout"; EvConnect] in
  ∃ s3, run (pre ++ EvConnect :: post) fresh = Some s3
        ∧ messages s3
          = [welcomeMessage; mkMessage (Some "42") "Try the 2nd floor." chatbot].
Proof.
  intros pre post.
  destruct (welcome_once_per_session fresh pre post)
    as (s1 & s2 & s3 & _ & _ & _ & Hrun & Hl1 & _ & Hl2 & _ & Hl3 & _).
  - apply useEffect_mounted.
  - reflexivity.
  - repeat constructor; discriminate.
  - intros Hin. apply list_elem_of_In in Hin. simpl in Hin.
    destruct Hin as [Hin|[]]. discriminate Hin.
  - exists s3. split; [exact Hrun|]. rewrite Hl3, Hl2, Hl1. reflexivity.
Defined.

(** ** Backend events *)

(** C4. A run of 'message' events appends one chatbot message per event,
    in delivery order, and leaves the typing flag cleared. *)
Theorem message_events_append_in_order s (ms : list (option string * string)) :
  Mounted s →
  ∃ s', run (map message_event ms) s = Some s' ∧ Mounted s'
        ∧ messages s' = messages s ++ map chatbot_message ms
        ∧ length (messages s') = length (messages s) + length ms
        ∧ (ms ≠ [] → isTyping s' = false).
Proof.
  revert s. induction ms as [|[messageId message] ms IH]; intros s Hm; simpl.
  - exists s. rewrite app_nil_r. repeat split; try done; lia.
  - destruct Hm as (sk & Hs & Hc).
    change (message_event (messageId, message)) with (EvMessage messageId message).
    change (chatbot_message (messageId, message))
      with (mkMessage messageId message chatbot).
    rewrite (deliver_message s sk) by done. simpl.
    destruct (IH (on_message messageId message s)) as (s' & Hr & Hm' & Hlog & Hlen & Hty).
    { by exists sk. }
    exists s'. split; [done|]. split; [done|].
    simpl in Hlog, Hlen. rewrite <- app_assoc in Hlog. simpl in Hlog.
    split; [done|]. split.
    + rewrite Hlen, length_app. simpl. lia.
    + intros _. destruct ms as [|m ms]; [|by apply Hty].
      simpl in Hr. by injection Hr as <-.
Qed.

Lemma message_events_append_in_order_witness :
  ∃ s', run [EvMessage (Some "42") "Try the 2nd floor."] fresh = Some s'
        ∧ messages s' = [mkMessage (Some "42") "Try the 2nd floor." chatbot]
        ∧ isTyping s' = false.
Proof.
  destruct (message_events_append_in_order fresh [(Some "42", "Try the 2nd floor.")])
    as (s' & Hr & _ & Hlog & _ & Hty).
  - apply useEffect_mounted.
  - exists s'. split; [exact Hr|]. split; [exact Hlog|]. apply Hty. discriminate.
Defined.

(** C2, as the code has it. The effect registers the 'unexpected_error'
    callback twice, so one event runs it twice: the typing flag is cleared,
    the snapshot is the payload, the instance is marked disconnected, and
    the log receives two fallback messages, not one. *)
Theorem unexpected_error_handled_twice s payload :
  Mounted s →
  ∃ s', deliver (EvUnexpectedError payload) s = Some s'
        ∧ isTyping s' = false
        ∧ messages s' = messages s ++ [fallbackMessage; fallbackMessage]
        ∧ conversationHistory s' = payload
        ∧ isConnected s' = false.
Proof.
  intros (sk & Hs & Hc). eexists. split; [by apply (deliver_unexpected_error s sk)|].
  simpl. by rewrite <- app_assoc.
Qed.

Lemma unexpected_error_handled_twice_witness :
  ∃ s', deliver (EvUnexpectedError "history") fresh = Some s'
        ∧ isTyping s' = false
        ∧ messages s' = messages fresh ++ [fallbackMessage; fallbackMessage]
        ∧ conversationHistory s' = "history"
        ∧ isConnected s' = false.
Proof.
  apply (unexpected_error_handled_twice fresh "history"), useEffect_mounted.
Defined.

Lemma escalated_reached :
  deliver (EvUnexpectedError "history") fresh = Some escalated ∧ Mounted escalated.
Proof. split; [reflexivity|]. exists (register io). by split. Qed.

(** C5. A lost connection, a connection error and a connection timeout
    mark the instance disconnected and attempted, and leave the log, the
    typing flag, the history snapshot and the session flag as they were. *)
Theorem failure_keeps_conversation s ev :
  Mounted s → failure ev →
  ∃ s', deliver ev s = Some s'
        ∧ isConnected s' = false ∧ attemptedConnection s' = true
        ∧ messages s' = messages s ∧ isTyping s' = isTyping s
        ∧ conversationHistory s' = conversationHistory s
        ∧ curSession s' = curSession s.
Proof.
  intros (sk & Hs & Hc) Hf.
  destruct ev as [|messageId message|history|reason|error|timeout]; try done.
  - rewrite (deliver_disconnect s sk) by done. unfold on_disconnect.
    destruct (decide (reason = "io client disconnect")) as [->|Hne]; [done|].
    by eexists.
  - rewrite (deliver_connect_error s sk) by done. by eexists.
  - rewrite (deliver_connect_timeout s sk) by done. by eexists.
Qed.

Lemma failure_keeps_conversation_witness :
  ∃ s', deliver (EvDisconnect "transport close") escalated = Some s'
        ∧ isConnected s' = false ∧ attemptedConnection s' = true
        ∧ messages s' = messages escalated ∧ isTyping s' = isTyping escalated
        ∧ conversationHistory s' = conversationHistory escalated
        ∧ curSession s' = curSession escalated.
Proof.
  apply (failure_keeps_conversation escalated (EvDisconnect "transport close")).
  - exists (register io). split; reflexivity.
  - simpl. discriminate.
Defined.

(** ** Reset *)

(** C3 as stated fails: after an unexpected error stored the snapshot
    "history", the client-requested disconnect empties the log and clears
    the typing flag but the snapshot is still "history". *)
Lemma reset_keeps_history_snapshot :
  ¬ ∃ s', deliver (EvDisconnect "io client disconnect") escalated = Some s'
          ∧ messages s' = [] ∧ isTyping s' = false
          ∧ conversationHistory s' = EmptyString
          ∧ curSession s' = true.
Proof.
  intros (s' & Hd & _ & _ & Hh & _).
  vm_compute in Hd. injection Hd as <-. discriminate Hh.
Qed.

(** C3, amended. The disconnect the client asked for empties the log,
    clears the typing flag, arms the session again and reconnects the
    socket; the history snapshot is left as it was; a second such event
    changes nothing more. *)
Theorem reset_on_client_disconnect s :
  Mounted s →
  ∃ s' sk',
    deliver (EvDisconnect "io client disconnect") s = Some s'
    ∧ Mounted s'
    ∧ messages s' = [] ∧ isTyping s' = false ∧ curSession s' = true
    ∧ socket s' = Some sk' ∧ active sk' = true
    ∧ conversationHistory s' = conversationHistory s
    ∧ deliver (EvDisconnect "io client disconnect") s' = Some s'.
Proof.
  intros (sk & Hs & Hc).
  rewrite (deliver_disconnect s sk) by done.
  unfold on_disconnect. rewrite decide_True by done. simpl.
  eexists _, _. split; [reflexivity|].
  split; [by eexists|]. repeat split.
  erewrite deliver_disconnect; [|reflexivity|exact Hc].
  unfold on_disconnect. rewrite decide_True by done. reflexivity.
Qed.

Lemma reset_on_client_disconnect_witness :
  ∃ s' sk',
    deliver (EvDisconnect "io client disconnect") escalated = Some s'
    ∧ Mounted s'
    ∧ messages s' = [] ∧ isTyping s' = false ∧ curSession s' = true
    ∧ socket s' = Some sk' ∧ active sk' = true
    ∧ conversationHistory s' = conversationHistory escalated
    ∧ deliver (EvDisconnect "io client disconnect") s' = Some s'.
Proof.
  apply (reset_on_client_disconnect escalated).
  exists (register io). split; reflexivity.
Defined.

(** Feedback is the way to that event: on a connected instance
    [sendUserFeedback] emits the feedback and disconnects, the socket
    closes with the reason 'io client disconnect', and the 'disconnect'
    listener resets the conversation and reconnects. *)
Lemma sendUserFeedback_resets s sk userFeedback :
  socket s = Some sk → callbacks sk = callbacks (register io) →
  connected sk = true →
  ∃ s' sk',
    sendUserFeedback userFeedback s = Some s' ∧ socket s' = Some sk'
    ∧ sent sk' = sent sk ++ [("userFeedback", userFeedback)]
    ∧ connected sk' = false ∧ active sk' = true
    ∧ messages s' = [] ∧ curSession s' = true.
Proof.
  intros Hs Hc Hconn. unfold sendUserFeedback, socket_disconnect.
  rewrite Hs. simpl. rewrite Hconn.
  erewrite deliver_disconnect; [|reflexivity|exact Hc].
  unfold on_disconnect. rewrite decide_True by done. simpl.
  by eexists _, _.
Qed.

(** ** Sending *)

(** C6 as stated fails: on a mounted instance that is not connected,
    [sendUserMessage] hands a 'message' packet to the socket. *)
Lemma sendUserMessage_emits_while_disconnected :
  isConnected fresh = false
  ∧ sent <$> socket fresh = Some []
  ∧ sent <$> socket (sendUserMessage "Where is the library?" fresh)
    = Some [("message", "Where is the library?")].
Proof. repeat split. Qed.

(** C6, amended. [sendUserMessage] is guarded by the socket reference, not
    by the connection flag: with no socket it changes nothing; with a
    socket it emits one 'message' event carrying the text, whatever
    [isConnected] is; in both cases the log, the typing flag and the
    storage slot are not touched. *)
Theorem sendUserMessage_guarded_by_socket s message :
  (socket s = None → sendUserMessage message s = s)
  ∧ (∀ sk, socket s = Some sk →
       socket (sendUserMessage message s) = Some (emit "message" message sk)
       ∧ sent (emit "message" message sk) = sent sk ++ [("message", message)])
  ∧ messages (sendUserMessage message s) = messages s
  ∧ isTyping (sendUserMessage message s) = isTyping s
  ∧ chat_messages (sendUserMessage message s) = chat_messages s.
Proof.
  unfold sendUserMessage. destruct (socket s) as [sk|] eqn:Hs.
  - split; [done|]. split; [|done]. intros sk' [= <-]. by split.
  - by repeat split.
Qed.

Lemma sendUserMessage_guarded_by_socket_witness :
  sendUserMessage "Where is the library?" (initial [] false None)
  = initial [] false None
  ∧ socket (sendUserMessage "Where is the library?" fresh)
    = Some (emit "message" "Where is the library?" (register io)).
Proof.
  split.
  - apply (sendUserMessage_guarded_by_socket (initial [] false None)). reflexivity.
  - destruct (sendUserMessage_guarded_by_socket fresh "Where is the library?")
      as (_ & Hemit & _).
    apply (Hemit (register io)). reflexivity.
Defined.

(** ** Unmount *)

(** C7, as the code has it. The cleanup detaches the listeners of
    'message', 'disconnect', 'connect_error' and 'connect_timeout' and
    closes the socket; the 'connect' listener and both 'unexpected_error'
    listeners stay attached. It does not run the reset, leaves the rest of
    the state alone, and a second cleanup changes nothing. *)
Theorem cleanup_leaves_listeners s :
  Mounted s →
  ∃ s' sk',
    cleanup s = Some s' ∧ socket s' = Some sk'
    ∧ callbacks sk' = [("connect", HConnect);
                       ("unexpected_error", HUnexpectedError);
                       ("unexpected_error", HUnexpectedError)]
    ∧ connected sk' = false ∧ active sk' = false
    ∧ messages s' = messages s ∧ curSession s' = curSession s
    ∧ cleanup s' = Some s'.
Proof.
  intros (sk & Hs & Hc).
  destruct s as [log typing stored ? cur conn att hist]. simpl in Hs. subst.
  destruct sk as [cbs c a snt]. simpl in Hc. subst cbs.
  destruct c; eexists _, _; (split; [vm_compute; reflexivity|]);
    repeat split; reflexivity.
Qed.

Lemma cleanup_leaves_listeners_witness :
  ∃ s' sk',
    cleanup fresh = Some s' ∧ socket s' = Some sk'
    ∧ callbacks sk' = [("connect", HConnect);
                       ("unexpected_error", HUnexpectedError);
                       ("unexpected_error", HUnexpectedError)]
    ∧ connected sk' = false ∧ active sk' = false
    ∧ messages s' = messages fresh ∧ curSession s' = curSession fresh
    ∧ cleanup s' = Some s'.
Proof. apply (cleanup_leaves_listeners fresh), useEffect_mounted. Defined.

(** ** Further properties of the provider *)




(** A 'connect' event marks the instance connected and attempted, clears
    the typing flag and leaves the session disarmed.  On a disarmed
    session it leaves the log and the storage slot alone; on an armed one
    the slot receives the log with the welcome message. *)
Theorem connect_marks_connected s :
  Mounted s →
  ∃ s', deliver EvConnect s = Some s'
        ∧ isConnected s' = true ∧ attemptedConnection s' = true
        ∧ isTyping s' = false ∧ curSession s' = false
        ∧ conversationHistory s' = conversationHistory s
        ∧ (curSession s = false →
           messages s' = messages s ∧ chat_messages s' = chat_messages s)
        ∧ (curSession s = true →
           chat_messages s' = Some (messages s ++ [welcomeMessage])).
Proof.
  intros (sk & Hs & Hc). eexists. split; [by apply deliver_connect|].
  unfold on_connect. simpl.
  destruct (curSession s) eqn:Hcur; simpl; rewrite ?Hcur; by repeat split.
Qed.

Lemma connect_marks_connected_witness :
  ∃ s', deliver EvConnect escalated = Some s'
        ∧ isConnected s' = true ∧ isTyping s' = false
        ∧ chat_messages s'
          = Some [fallbackMessage; fallbackMessage; welcomeMessage].
Proof.
  destruct (connect_marks_connected escalated)
    as (s' & Hd & Hc & _ & Ht & _ & _ & _ & Hst).
  { exists (register io). by split. }
  exists s'. repeat split; try done. by apply Hst.
Defined.

(** The disconnect the client asked for leaves the connection flags of
    the provider, the listeners and the packets already emitted as they
    were: [isConnected] is not set to false on this path. *)
Theorem reset_keeps_connection_flags s sk :
  socket s = Some sk → callbacks sk = callbacks (register io) →
  ∃ s' sk',
    deliver (EvDisconnect "io client disconnect") s = Some s'
    ∧ socket s' = Some sk'
    ∧ isConnected s' = isConnected s
    ∧ attemptedConnection s' = attemptedConnection s
    ∧ callbacks sk' = callbacks sk ∧ sent sk' = sent sk
    ∧ connected sk' = false.
Proof.
  intros Hs Hc. rewrite (deliver_disconnect s sk) by done.
  unfold on_disconnect. rewrite decide_True by done. simpl.
  by eexists _, _.
Qed.

Lemma reset_keeps_connection_flags_witness :
  ∃ s' sk',
    deliver (EvDisconnect "io client disconnect") escalated = Some s'
    ∧ socket s' = Some sk'
    ∧ isConnected s' = isConnected escalated
    ∧ attemptedConnection s' = attemptedConnection escalated
    ∧ callbacks sk' = callbacks (register io) ∧ sent sk' = sent (register io)
    ∧ connected sk' = false.
Proof.
  apply (reset_keeps_connection_flags escalated (register io)); reflexivity.
Defined.

(** A new session is welcomed again: after the disconnect the client
    asked for, the next 'connect' leaves the log, and the storage slot,
    holding the welcome message alone. *)
Theorem new_session_welcomed_again s :
  Mounted s →
  ∃ s', run [EvDisconnect "io client disconnect"; EvConnect] s = Some s'
        ∧ messages s' = [welcomeMessage]
        ∧ chat_messages s' = Some [welcomeMessage]
        ∧ curSession s' = false ∧ isConnected s' = true.
Proof.
  intros (sk & Hs & Hc). simpl.
  rewrite (deliver_disconnect s sk) by done.
  unfold on_disconnect. rewrite decide_True by done. simpl.
  erewrite deliver_connect; [|reflexivity|by destruct (connected sk)].
  simpl. by eexists.
Qed.

Lemma new_session_welcomed_again_witness :
  ∃ s', run [EvDisconnect "io client disconnect"; EvConnect] escalated = Some s'
        ∧ messages s' = [welcomeMessage]
        ∧ chat_messages s' = Some [welcomeMessage]
        ∧ curSession s' = false ∧ isConnected s' = true.
Proof.
  apply (new_session_welcomed_again escalated).
  exists (register io). by split.
Defined.

(** Between two resets the log is append-only: whatever the events, the
    log before is a prefix of the log after. *)
Theorem log_append_only evs : ∀ s,
  Mounted s → Forall transient evs →
  ∃ s', run evs s = Some s' ∧ messages s `prefix_of` messages s'.
Proof.
  induction evs as [|ev evs IH]; intros s Hm Htr; simpl; [by exists s|].
  apply Forall_cons in Htr as [Hev Htr].
  assert (∃ s1, deliver ev s = Some s1 ∧ Mounted s1
                ∧ messages s `prefix_of` messages s1) as (s1 & -> & Hm1 & Hpre).
  { assert (ev = EvConnect ∨ ev ≠ EvConnect) as [->|Hne]
      by (destruct ev; [by left | by right..]);
      [destruct (curSession s) eqn:Hcur|].
    - destruct (deliver_connect_armed s Hm Hcur) as (s1 & Hd & Hm1 & Hlog & _).
      exists s1. split; [done|]. split; [done|]. rewrite Hlog. by apply prefix_app_r.
    - destruct (deliver_step s EvConnect Hm Hev) as (s1 & Hd & Hm1 & Hlog & _);
        [by left|].
      exists s1. split; [done|]. split; [done|]. rewrite Hlog. by apply prefix_app_r.
    - destruct (deliver_step s ev Hm Hev) as (s1 & Hd & Hm1 & Hlog & _);
        [by right|].
      exists s1. split; [done|]. split; [done|]. rewrite Hlog. by apply prefix_app_r. }
  simpl. destruct (IH s1 Hm1 Htr) as (s' & Hr & Hpre').
  exists s'. split; [done|]. by etrans.
Qed.

Lemma log_append_only_witness :
  ∃ s', run [EvConnect; EvMessage (Some "1") "Hello"; EvDisconnect "ping timeout";
             EvUnexpectedError "h"] escalated = Some s'
        ∧ messages escalated `prefix_of` messages s'.
Proof.
  apply log_append_only.
  - exists (register io). by split.
  - repeat constructor; discriminate.
Defined.

(** ** Feedback, sending, and life after unmount *)

Lemma sendUserFeedback_resets_witness :
  ∃ s' sk',
    sendUserFeedback "5 stars" chatting = Some s' ∧ socket s' = Some sk'
    ∧ sent sk' = [("userFeedback", "5 stars")]
    ∧ connected sk' = false ∧ active sk' = true
    ∧ messages s' = [] ∧ curSession s' = true.
Proof.
  apply (sendUserFeedback_resets chatting (set_connected true (register io)));
    reflexivity.
Defined.

(** Feedback sent while the socket is not connected is handed to the
    socket, which then leaves its manager; no 'disconnect' event follows,
    so the conversation is not reset and the socket does not reconnect. *)
Theorem sendUserFeedback_while_disconnected s sk userFeedback :
  socket s = Some sk → connected sk = false →
  ∃ s' sk',
    sendUserFeedback userFeedback s = Some s' ∧ socket s' = Some sk'
    ∧ sent sk' = sent sk ++ [("userFeedback", userFeedback)]
    ∧ active sk' = false ∧ connected sk' = false
    ∧ messages s' = messages s ∧ curSession s' = curSession s
    ∧ isTyping s' = isTyping s.
Proof.
  intros Hs Hconn. unfold sendUserFeedback, socket_disconnect.
  rewrite Hs. simpl. rewrite Hconn. by eexists _, _.
Qed.

Lemma sendUserFeedback_while_disconnected_witness :
  ∃ s' sk',
    sendUserFeedback "5 stars" escalated = Some s' ∧ socket s' = Some sk'
    ∧ sent sk' = [("userFeedback", "5 stars")]
    ∧ active sk' = false ∧ connected sk' = false
    ∧ messages s' = messages escalated ∧ curSession s' = curSession escalated
    ∧ isTyping s' = isTyping escalated.
Proof.
  apply (sendUserFeedback_while_disconnected escalated (register io)); reflexivity.
Defined.

Lemma send_socket o s sk :
  socket s = Some sk →
  socket (send o s) = Some (emit (packet o).1 (packet o).2 sk)
  ∧ messages (send o s) = messages s ∧ isTyping (send o s) = isTyping s
  ∧ chat_messages (send o s) = chat_messages s
  ∧ curSession (send o s) = curSession s
  ∧ isConnected (send o s) = isConnected s.
Proof.
  intros Hs. destruct o; simpl;
    unfold sendUserMessage, offlineTicketSubmit, sendMessageRating;
    by rewrite Hs.
Qed.

(** Messages, tickets and ratings are handed to the socket in the order
    of the calls, one packet each, connected or not, and touch nothing
    else; before the socket exists they are all dropped. *)
Theorem sends_are_emitted_in_order outs : ∀ s,
  (∀ sk, socket s = Some sk →
     ∃ sk', socket (foldl (λ s o, send o s) s outs) = Some sk'
            ∧ sent sk' = sent sk ++ map packet outs
            ∧ callbacks sk' = callbacks sk ∧ connected sk' = connected sk)
  ∧ (socket s = None → foldl (λ s o, send o s) s outs = s)
  ∧ messages (foldl (λ s o, send o s) s outs) = messages s
  ∧ isTyping (foldl (λ s o, send o s) s outs) = isTyping s
  ∧ isConnected (foldl (λ s o, send o s) s outs) = isConnected s.
Proof.
  induction outs as [|o outs IH]; intros s; simpl.
  - split; [|done]. intros sk Hs. exists sk. by rewrite app_nil_r.
  - destruct (IH (send o s)) as (Hsome & Hnone & Hlog & Hty & Hconn).
    destruct (socket s) as [sk|] eqn:Hs.
    + destruct (send_socket o s sk Hs) as (Hs1 & Hl1 & Ht1 & _ & _ & Hc1).
      split; [|split; [done|]].
      * intros sk0 [= <-]. destruct (Hsome _ Hs1) as (sk' & Hsk' & Hsent & Hcb & Hcn).
        exists sk'. split; [done|]. rewrite Hsent. simpl.
        rewrite <- app_assoc. simpl. by destruct (packet o).
      * rewrite Hlog, Hty, Hconn. by rewrite Hl1, Ht1, Hc1.
    + assert (send o s = s) as Hsame.
      { destruct o; simpl;
          unfold sendUserMessage, offlineTicketSubmit, sendMessageRating;
          by rewrite Hs. }
      rewrite Hsame in *. split; [done|]. split; [|done].
      intros _. by apply Hnone.
Qed.

Lemma sends_are_emitted_in_order_witness :
  ∃ sk', socket (foldl (λ s o, send o s) fresh
                   [OutMessage "Where is the library?"; OutRating "up";
                    OutTicket "form"]) = Some sk'
         ∧ sent sk' = [("message", "Where is the library?");
                       ("messageRating", "up"); ("createTicket", "form")].
Proof.
  destruct (sends_are_emitted_in_order
              [OutMessage "Where is the library?"; OutRating "up"; OutTicket "form"]
              fresh) as (Hsome & _).
  destruct (Hsome (register io) eq_refl) as (sk' & Hs & Hsent & _).
  exists sk'. split; [exact Hs|exact Hsent].
Defined.

(** After the cleanup the events whose listeners it detached change
    nothing, whatever they carry: a late reply is dropped, and a late
    'io client disconnect' resets nothing. *)
Theorem unmounted_drops_late_events s s' ev :
  Mounted s → cleanup s = Some s' → detached ev → deliver ev s' = Some s'.
Proof.
  intros (sk & Hs & Hc) Hclean Hev.
  destruct s as [log typing stored ? cur conn att hist]. simpl in Hs. subst.
  destruct sk as [cbs c a snt]. simpl in Hc. subst cbs.
  assert (s' = mkState log typing stored
                 (Some (mkSocket [("connect", HConnect);
                                  ("unexpected_error", HUnexpectedError);
                                  ("unexpected_error", HUnexpectedError)]
                                 false false snt))
                 cur conn att hist) as ->.
  { destruct c; vm_compute in Hclean; by injection Hclean as <-. }
  destruct ev; try done; reflexivity.
Qed.

Lemma unmounted_drops_late_events_witness :
  ∃ s', cleanup chatting = Some s'
        ∧ deliver (EvMessage (Some "7") "Sorry for the delay") s' = Some s'
        ∧ deliver (EvDisconnect "io client disconnect") s' = Some s'.
Proof.
  destruct (cleanup chatting) as [s'|] eqn:Hclean; [|discriminate Hclean].
  exists s'. split; [reflexivity|].
  split; apply (unmounted_drops_late_events chatting s'); try exact Hclean;
    try exact I; exists (set_connected true (register io)); by split.
Defined.



End ClientProofs.

(* ===================================================================== *)
(** * Properties of the catalogue search adapter                          *)
(* ===================================================================== *)

Module EbscoProofs.
Import Js Ebsco.

Lemma find_first_named name items :
  match List.find (λ i, bool_decide (Name i = name)) items with
  | Some item => first_named name items item
  | None => ∀ i, i ∈ items → Name i ≠ name
  end.
Proof.
  induction items as [|i items IH]; simpl.
  - intros i Hin. by apply not_elem_of_nil in Hin.
  - case_bool_decide as Hi.
    + exists [], items. split; [done|]. split; [done|].
      intros j Hin. by apply not_elem_of_nil in Hin.
    + destruct (List.find _ items) as [item|].
      * destruct IH as (before & after & -> & Hname & Hbefore).
        exists (i :: before), after. split; [done|]. split; [done|].
        intros j [->|Hin]%elem_of_cons; [done | by apply Hbefore].
      * intros j [->|Hin]%elem_of_cons; [done | by apply IH].
Qed.

Lemma first_named_unique name items item item' :
  first_named name items item → first_named name items item' → item = item'.
Proof.
  intros (b1 & a1 & -> & Hn1 & Hb1) (b2 & a2 & Heq & Hn2 & Hb2).
  revert b2 Heq Hb2. induction b1 as [|x b1 IH]; intros [|y b2] Heq Hb2; simpl in *.
  - congruence.
  - injection Heq as -> _. exfalso. apply (Hb2 y); [left | done].
  - injection Heq as -> _. exfalso. apply (Hb1 item'); [left | done].
  - injection Heq as -> Heq. apply (IH (λ i Hi, Hb1 i (list_elem_of_further _ _ _ Hi)) b2 Heq).
    intros i Hi. apply Hb2. by right.
Qed.

Lemma or_else_defined v fallback :
  truthy fallback = true → ∃ data, or_else v fallback = str data ∧ data ≠ EmptyString.
Proof.
  intros Hf. unfold or_else. destruct (truthy v) eqn:Hv.
  - destruct v as [| |[|c data]]; try done. by eexists.
  - destruct fallback as [| |[|c data]]; try done. by eexists.
Qed.

Lemma extractItemData_defined items name :
  ∃ data, extractItemData items name = str data ∧ data ≠ EmptyString.
Proof.
  unfold extractItemData. destruct items as [[|i items]|]; try by eexists.
  by apply or_else_defined.
Qed.

Lemma extractSubjects_defined items :
  ∃ data, extractSubjects items = str data.
Proof.
  unfold extractSubjects. destruct items as [[|i items]|]; try by eexists.
  destruct (extractItemData_defined (Some (i :: items)) "Subject") as (data & -> & _).
  destruct (truthy (str data)); by eexists.
Qed.

Lemma extractPublicationYear_returns items :
  ∃ year, extractPublicationYear items = Return year.
Proof.
  unfold extractPublicationYear. destruct items as [[|i items]|]; try by eexists.
  destruct (extractItemData_defined (Some (i :: items)) "TitleSource") as (data & -> & _).
  by eexists.
Qed.

(** C10. [extractItemData] always answers with a non-empty string: the
    [Data] of the first item of that name when it is truthy, and
    'Not available' when the list is no array, is empty, has no item of
    that name, or that item's [Data] is falsy.  Hence the display record
    of a record has strings for title, author and subjects. *)
Theorem extractItemData_total items name :
  (∃ data, extractItemData items name = str data ∧ data ≠ EmptyString)
  ∧ (∀ l item, items = Some l → first_named name l item →
       truthy (Data item) = true → extractItemData items name = Data item)
  ∧ (items = None ∨ items = Some []
     ∨ (∃ l, items = Some l ∧ ∀ i, i ∈ l → Name i ≠ name)
     ∨ (∃ l item, items = Some l ∧ first_named name l item
                  ∧ truthy (Data item) = false) →
     extractItemData items name = str "Not available")
  ∧ (∀ record, ∃ d t a sj,
       transformToDisplayRecord (Some record) = Return d
       ∧ title d = str t ∧ author d = str a ∧ subjects d = str sj).
Proof.
  split; [apply extractItemData_defined|]. split; [|split].
  - intros l item -> Hfirst Htruthy. unfold extractItemData.
    destruct l as [|i l].
    { destruct Hfirst as ([|??] & ? & ? & _); done. }
    pose proof (find_first_named name (i :: l)) as Hfind.
    destruct (List.find _ (i :: l)) as [item'|].
    + rewrite (first_named_unique _ _ _ _ Hfind Hfirst).
      unfold or_else. by rewrite Htruthy.
    + destruct Hfirst as (before & after & Heq & Hname & _).
      exfalso. apply (Hfind item); [|done]. rewrite Heq.
      apply elem_of_app. right. left.
  - intros [->|[->|[(l & -> & Hnone)|(l & item & -> & Hfirst & Hfalsy)]]]; try done.
    + unfold extractItemData. destruct l as [|i l]; [done|].
      pose proof (find_first_named name (i :: l)) as Hfind.
      destruct (List.find _ (i :: l)) as [item'|]; [|done].
      destruct Hfind as (before & after & Heq & Hname & _).
      exfalso. apply (Hnone item'); [|done]. rewrite Heq.
      apply elem_of_app. right. left.
    + unfold extractItemData. destruct l as [|i l]; [done|].
      pose proof (find_first_named name (i :: l)) as Hfind.
      destruct (List.find _ (i :: l)) as [item'|]; [|done].
      rewrite (first_named_unique _ _ _ _ Hfind Hfirst).
      unfold or_else. by rewrite Hfalsy.
  - intros record. unfold transformToDisplayRecord.
    set (its := Some (default [] (Some record ≫= Items))).
    destruct (extractPublicationYear_returns its) as (year & ->). simpl.
    destruct (extractItemData_defined its "Title") as (t & Ht & _).
    destruct (extractItemData_defined its "Author") as (a & Ha & _).
    destruct (extractSubjects_defined its) as (sj & Hsj).
    eexists _, t, a, sj. split; [reflexivity|]. simpl. done.
Qed.

Lemma extractItemData_total_witness :
  let l := [mkItem "Author" (str "Knuth, Donald");
            mkItem "Title" (str EmptyString);
            mkItem "Title" (str "Shadowed")] in
  extractItemData (Some l) "Author" = str "Knuth, Donald"
  ∧ extractItemData (Some l) "Title" = str "Not available"
  ∧ extractItemData None "Title" = str "Not available".
Proof.
  intros l.
  destruct (extractItemData_total (Some l) "Author") as (_ & Hdata & _).
  destruct (extractItemData_total (Some l) "Title") as (_ & _ & Hna & _).
  destruct (extractItemData_total None "Title") as (_ & _ & Hna' & _).
  split; [|split].
  - apply (Hdata l (mkItem "Author" (str "Knuth, Donald"))); [reflexivity| |reflexivity].
    exists [], (tail l). split; [reflexivity|]. split; [reflexivity|].
    intros i Hin. by apply not_elem_of_nil in Hin.
  - apply Hna. right. right. right.
    exists l, (mkItem "Title" (str EmptyString)). split; [reflexivity|].
    split; [|reflexivity].
    exists [mkItem "Author" (str "Knuth, Donald")], [mkItem "Title" (str "Shadowed")].
    split; [reflexivity|]. split; [reflexivity|].
    intros i Hin. apply list_elem_of_singleton in Hin. subst i. discriminate.
  - apply Hna'. by left.
Defined.

(** ** The search *)

#[local] Ltac by_cases :=
  repeat split; try done; intros; simplify_eq;
  solve [ done
        | match goal with
          | H1 : ?x = Return _, H2 : ?x = Throw _ |- _ =>
              rewrite H1 in H2; discriminate H2
          | H1 : ?l = [], H2 : all _ ?l = _ |- _ =>
              rewrite H1 in H2; discriminate H2
          end ].

(** C8. [searchForBook] returns a non-empty list of display records, each
    the transform of a record of the response, or it throws.  A search
    that answers with no record throws 'No results found'; a search that
    answers with an error, or whose records cannot be transformed, throws
    'No results found due to an error.'; a search that itself throws lets
    the error through. *)
Theorem searchForBook_nonempty_or_throws
    (getEnvironmentVariables : Outcome unit)
    (performSearch : string → string → Z → Outcome (Either Error SearchResponse))
    (endSession : string → Outcome unit) query sessionToken numOfBooks :
  let search := searchForBook getEnvironmentVariables performSearch endSession
                              query sessionToken numOfBooks in
  match search with
  | Return data =>
      data ≠ []
      ∧ ∃ response,
          performSearch sessionToken query numOfBooks = Return (inr response)
          ∧ all transformToDisplayRecord (Records (Data_ (SearchResult response)))
            = Return data
  | Throw _ => True
  end
  ∧ (∀ response,
       getEnvironmentVariables = Return () →
       performSearch sessionToken query numOfBooks = Return (inr response) →
       Records (Data_ (SearchResult response)) = [] →
       endSession sessionToken = Return () →
       search = Throw (new_Error "No results found"))
  ∧ (∀ e,
       getEnvironmentVariables = Return () →
       performSearch sessionToken query numOfBooks = Return (inl e) →
       search = Throw (new_Error "No results found due to an error."))
  ∧ (∀ response e,
       getEnvironmentVariables = Return () →
       performSearch sessionToken query numOfBooks = Return (inr response) →
       all transformToDisplayRecord (Records (Data_ (SearchResult response)))
       = Throw e →
       search = Throw (new_Error "No results found due to an error."))
  ∧ (∀ e,
       getEnvironmentVariables = Return () →
       performSearch sessionToken query numOfBooks = Throw e →
       search = Throw e).
Proof.
  intros search. subst search. unfold searchForBook, queryEbscoApi.
  destruct getEnvironmentVariables as [[]|e0]; simpl; [|by repeat split].
  destruct (performSearch sessionToken query numOfBooks) as [[e|response]|e]; simpl.
  - by_cases.
  - destruct (all transformToDisplayRecord _) as [data|e] eqn:Hall; simpl.
    + destruct (endSession sessionToken) as [[]|e] eqn:Hend; simpl.
      * destruct data as [|d data]; simpl; [by_cases|].
        split; [split; [done | by exists response]|]. by_cases.
      * by_cases.
    + by_cases.
  - by_cases.
Qed.

Lemma searchForBook_nonempty_or_throws_witness :
  let empty := mkSearchResponse (mkSearchResult (mkData [])) in
  searchForBook (Return ()) (λ _ _ _, Return (inr empty)) (λ _, Return ())
                "rust programming" "token" 3
  = Throw (new_Error "No results found")
  ∧ searchForBook (Return ())
      (λ _ _ _, Return (inl (new_Error "Request failed")))
      (λ _, Return ()) "rust programming" "token" 3
    = Throw (new_Error "No results found due to an error.").
Proof.
  intros empty. split.
  - destruct (searchForBook_nonempty_or_throws (Return ())
                (λ _ _ _, Return (inr empty)) (λ _, Return ())
                "rust programming" "token" 3) as (_ & Hnone & _).
    apply (Hnone empty); reflexivity.
  - destruct (searchForBook_nonempty_or_throws (Return ())
                (λ _ _ _, Return (inl (new_Error "Request failed")))
                (λ _, Return ()) "rust programming" "token" 3)
      as (_ & _ & Hleft & _).
    apply (Hleft (new_Error "Request failed")); reflexivity.
Defined.

(** ** Further properties of the extractors *)

Lemma is_digit_bound c : is_digit c = true → (digit c ≤ 9)%nat.
Proof.
  unfold is_digit, digit. intros [H1 H2]%andb_prop.
  apply Nat.leb_le in H1, H2. lia.
Qed.

Lemma match_year_unfold a b c d t :
  match_year (String a (String b (String c (String d t))))
  = if is_digit a && is_digit b && is_digit c && is_digit d
    then Some (year_of a b c d)
    else match_year (String b (String c (String d t))).
Proof. reflexivity. Qed.

Lemma append_nil q : EmptyString +:+ q = q.
Proof. reflexivity. Qed.

Lemma append_cons x p q : String x p +:+ q = String x (p +:+ q).
Proof. reflexivity. Qed.

Lemma match_year_short a rest :
  (∀ b c d t, rest ≠ String b (String c (String d t))) →
  match_year (String a rest) = None.
Proof.
  intros Hshort. destruct rest as [|b [|c [|d t]]]; try reflexivity.
  by destruct (Hshort b c d t).
Qed.

(** What the pattern [/(\d{4})/] finds is the leftmost run of four
    decimal digits: a year read off by [match_year] is spelled by four
    digits of the string, no four digits in a row start before them, and
    the year is below 10000. *)
Theorem match_year_leftmost s : ∀ y,
  match_year s = Some y →
  ∃ pre a b c d,
    digits_at s pre a b c d ∧ y = year_of a b c d ∧ (y < 10 * 1000)%nat
    ∧ ∀ pre' a' b' c' d',
        digits_at s pre' a' b' c' d' →
        (String.length pre ≤ String.length pre')%nat.
Proof.
  induction s as [|a rest IH]; intros y Hy; [discriminate Hy|].
  destruct rest as [|b [|c [|d t]]]; try discriminate Hy.
  rewrite match_year_unfold in Hy.
  destruct (is_digit a && is_digit b && is_digit c && is_digit d) eqn:Hw.
  - injection Hy as <-.
    apply andb_prop in Hw as [[[Ha Hb]%andb_prop Hc]%andb_prop Hd].
    exists EmptyString, a, b, c, d. split; [|split; [done|split]].
    + split; [by exists t | done].
    + pose proof (is_digit_bound a Ha). pose proof (is_digit_bound b Hb).
      pose proof (is_digit_bound c Hc). pose proof (is_digit_bound d Hd).
      unfold year_of. lia.
    + intros. simpl. lia.
  - destruct (IH y Hy) as (pre & a0 & b0 & c0 & d0 & Hat & -> & Hle & Hleft).
    exists (String a pre), a0, b0, c0, d0. split; [|split; [done|split; [done|]]].
    + destruct Hat as ((post & Hpost) & Hdig). split; [|done].
      exists post. rewrite append_cons. congruence.
    + intros pre' a' b' c' d' ((post' & Hpost') & Ha' & Hb' & Hc' & Hd').
      destruct pre' as [|x pre'];
        [rewrite append_nil in Hpost' | rewrite append_cons in Hpost'].
      * injection Hpost' as -> -> -> -> _.
        by rewrite Ha', Hb', Hc', Hd' in Hw.
      * injection Hpost' as _ Hrest. simpl.
        apply le_n_S, (Hleft pre' a' b' c' d'). split; [by exists post' | done].
Qed.

Lemma match_year_leftmost_witness :
  ∃ pre a b c d,
    digits_at "Oxford Press, c2019. 12345" pre a b c d
    ∧ 2019 = year_of a b c d ∧ (2019 < 10 * 1000)%nat
    ∧ ∀ pre' a' b' c' d',
        digits_at "Oxford Press, c2019. 12345" pre' a' b' c' d' →
        (String.length pre ≤ String.length pre')%nat.
Proof. apply (match_year_leftmost "Oxford Press, c2019. 12345"). reflexivity. Defined.

(** Conversely the pattern misses nothing: a string with four decimal
    digits in a row, anywhere, has a year. *)
Theorem match_year_finds s : ∀ pre a b c d,
  digits_at s pre a b c d → is_Some (match_year s).
Proof.
  induction s as [|x rest IH];
    intros pre a b c d ((post & Hpost) & Ha & Hb & Hc & Hd).
  - destruct pre; discriminate Hpost.
  - destruct pre as [|x' pre];
      [rewrite append_nil in Hpost | rewrite append_cons in Hpost].
    + injection Hpost as -> ->. rewrite match_year_unfold, Ha, Hb, Hc, Hd. by eexists.
    + injection Hpost as _ Hrest.
      assert (is_Some (match_year rest)) as Hsome.
      { apply (IH pre a b c d). split; [by exists post | done]. }
      destruct rest as [|b' [|c' [|d' t]]];
        try (destruct Hsome as [? Hsome]; discriminate Hsome).
      rewrite match_year_unfold. by destruct (_ && _).
Qed.

Lemma match_year_finds_witness : is_Some (match_year "Reprint of the 1876 ed.").
Proof.
  eapply (match_year_finds _ "Reprint of the ").
  split; [exists " ed."; reflexivity | done].
Defined.

Lemma extractItemData_found name l item :
  first_named name l item → truthy (Data item) = true →
  extractItemData (Some l) name = Data item.
Proof.
  intros Hfirst Htruthy. unfold extractItemData. destruct l as [|i l].
  { destruct Hfirst as ([|??] & ? & ? & _); done. }
  pose proof (find_first_named name (i :: l)) as Hfind.
  destruct (List.find _ (i :: l)) as [item'|].
  - rewrite (first_named_unique _ _ _ _ Hfind Hfirst).
    unfold or_else. by rewrite Htruthy.
  - destruct Hfirst as (before & after & Heq & Hname & _).
    exfalso. apply (Hfind item); [|done]. rewrite Heq.
    apply elem_of_app. right. left.
Qed.

Lemma extractItemData_missing name l :
  (∀ i, i ∈ l → Name i ≠ name) →
  extractItemData (Some l) name = str "Not available".
Proof.
  intros Hnone. unfold extractItemData. destruct l as [|i l]; [done|].
  pose proof (find_first_named name (i :: l)) as Hfind.
  destruct (List.find _ (i :: l)) as [item'|]; [|done].
  destruct Hfind as (before & after & Heq & Hname & _).
  exfalso. apply (Hnone item'); [|done]. rewrite Heq.
  apply elem_of_app. right. left.
Qed.

(** [extractPublicationYear] never throws.  It answers NaN when the items
    are no array, are empty or hold no 'TitleSource', and otherwise the
    leftmost four digits of the first 'TitleSource' that has data. *)
Theorem extractPublicationYear_cases items :
  ∃ year,
    extractPublicationYear items = Return year
    ∧ (items = None ∨ items = Some []
       ∨ (∃ l, items = Some l ∧ ∀ i, i ∈ l → Name i ≠ "TitleSource") →
       year = None)
    ∧ (∀ l item data,
         items = Some l → first_named "TitleSource" l item →
         Data item = str data → data ≠ EmptyString →
         year = match_year data).
Proof.
  destruct items as [[|i l]|].
  - exists None. split; [done|]. split; [done|].
    intros l item data [= <-] ([|??] & ? & ? & _); done.
  - destruct (extractItemData_defined (Some (i :: l)) "TitleSource")
      as (titleSource & Hts & _).
    exists (match_year titleSource). unfold extractPublicationYear.
    rewrite Hts. split; [done|]. split.
    + intros [?|[?|(l' & [= <-] & Hnone)]]; try done.
      rewrite (extractItemData_missing _ _ Hnone) in Hts.
      by injection Hts as <-.
    + intros l' item data [= <-] Hfirst Hdata Hne.
      rewrite (extractItemData_found _ _ item Hfirst) in Hts.
      * rewrite Hdata in Hts. by injection Hts as <-.
      * rewrite Hdata. by destruct data.
  - exists None. by repeat split.
Qed.

Lemma extractPublicationYear_cases_witness :
  extractPublicationYear
    (Some [mkItem "Title" (str "Rust in Action");
           mkItem "TitleSource" (str "Manning, 2021. 456 p.")])
  = Return (Some 2021).
Proof.
  set (l := [mkItem "Title" (str "Rust in Action");
             mkItem "TitleSource" (str "Manning, 2021. 456 p.")]).
  destruct (extractPublicationYear_cases (Some l)) as (year & -> & _ & Hfound).
  rewrite (Hfound l (mkItem "TitleSource" (str "Manning, 2021. 456 p."))
                  "Manning, 2021. 456 p."); try done.
  exists [mkItem "Title" (str "Rust in Action")], []. split; [done|].
  split; [done|]. intros i ->%list_elem_of_singleton. discriminate.
Defined.

(** The second fallback of [extractSubjects] never decides anything: the
    subjects are the item data of 'Subject'. *)
Theorem extractSubjects_is_item_data items :
  extractSubjects items = extractItemData items "Subject".
Proof.
  unfold extractSubjects. destruct items as [[|i l]|]; try done.
  destruct (extractItemData_defined (Some (i :: l)) "Subject") as (data & -> & Hne).
  by destruct data.
Qed.

(** ** Further properties of the search *)

Lemma transformToDisplayRecord_returns record :
  ∃ d, transformToDisplayRecord (Some record) = Return d.
Proof.
  unfold transformToDisplayRecord.
  destruct (extractPublicationYear_returns
              (Some (default [] (Some record ≫= Items)))) as (year & ->).
  by eexists.
Qed.

Lemma transformToDisplayRecord_null :
  transformToDisplayRecord None = Throw (TypeError_reading "undefined" "Header").
Proof. reflexivity. Qed.

Lemma all_Forall2 {A B} (f : A → Outcome B) xs : ∀ ys,
  all f xs = Return ys → Forall2 (λ x y, f x = Return y) xs ys.
Proof.
  induction xs as [|x xs IH]; intros ys; simpl.
  - intros [= <-]. constructor.
  - destruct (f x) as [y|e] eqn:Hx; simpl; [|done].
    destruct (all f xs) as [ys'|e]; simpl; [|done].
    intros [= <-]. constructor; [done | by apply IH].
Qed.

(** The records come back one for one and in the order of the response:
    whatever [numOfBooks] was, the result has as many display records as
    the response had records, none of them null, and the display record
    at each position is the transform of the record at that position. *)
Theorem searchForBook_keeps_order
    (getEnvironmentVariables : Outcome unit)
    (performSearch : string → string → Z → Outcome (Either Error SearchResponse))
    (endSession : string → Outcome unit) query sessionToken numOfBooks data :
  searchForBook getEnvironmentVariables performSearch endSession
                query sessionToken numOfBooks = Return data →
  ∃ response,
    performSearch sessionToken query numOfBooks = Return (inr response)
    ∧ length data = length (Records (Data_ (SearchResult response)))
    ∧ ∀ (i : nat) d, data !! i = Some d →
        ∃ record, Records (Data_ (SearchResult response)) !! i = Some (Some record)
                  ∧ transformToDisplayRecord (Some record) = Return d.
Proof.
  unfold searchForBook, queryEbscoApi.
  destruct getEnvironmentVariables as [[]|e0]; simpl; [|done].
  destruct (performSearch sessionToken query numOfBooks) as [[e|response]|e];
    simpl; try done.
  destruct (all transformToDisplayRecord _) as [data'|e] eqn:Hall; simpl; [|done].
  destruct (endSession sessionToken) as [[]|e]; simpl; [|done].
  destruct (0 <? length data')%nat; [|done]. intros [= <-].
  apply all_Forall2 in Hall. exists response. split; [done|].
  split; [symmetry; by eapply Forall2_length|].
  intros i d Hd.
  destruct (Forall2_lookup_r _ _ _ _ _ Hall Hd) as (record & Hrec & Htr).
  destruct record as [record|]; [by exists record|].
  rewrite transformToDisplayRecord_null in Htr. discriminate Htr.
Qed.

Lemma searchForBook_keeps_order_witness :
  let first := mkRecord (Some [mkItem "Title" (str "Dune")]) None None in
  let second := mkRecord None (Some (mkHeader (str "Book"))) None in
  let response := mkSearchResponse (mkSearchResult (mkData [Some first; Some second])) in
  ∃ data,
    searchForBook (Return ()) (λ _ _ _, Return (inr response)) (λ _, Return ())
                  "dune" "token" 1 = Return data
    ∧ length data = 2
    ∧ title <$> data = [str "Dune"; str "Not available"].
Proof.
  intros first second response.
  destruct (searchForBook (Return ()) (λ _ _ _, Return (inr response)) (λ _, Return ())
                          "dune" "token" 1) as [data|e] eqn:Hsearch;
    [|discriminate Hsearch].
  destruct (searchForBook_keeps_order _ _ _ _ _ _ _ Hsearch)
    as (response' & [= <-] & Hlen & _).
  exists data. split; [reflexivity|]. split; [exact Hlen|].
  by injection Hsearch as <-.
Defined.

(** Closing the session can cost the results: when the search and every
    transform succeeded but [endSession] throws, [searchForBook] throws
    that error. *)
Theorem searchForBook_fails_with_endSession
    (performSearch : string → string → Z → Outcome (Either Error SearchResponse))
    (endSession : string → Outcome unit) query sessionToken numOfBooks
    response data e :
  performSearch sessionToken query numOfBooks = Return (inr response) →
  all transformToDisplayRecord (Records (Data_ (SearchResult response)))
  = Return data →
  endSession sessionToken = Throw e →
  searchForBook (Return ()) performSearch endSession
                query sessionToken numOfBooks = Throw e.
Proof.
  intros Hsearch Hall Hend. unfold searchForBook, queryEbscoApi. simpl.
  rewrite Hsearch. simpl. rewrite Hall, Hend. done.
Qed.

Lemma searchForBook_fails_with_endSession_witness :
  let response :=
    mkSearchResponse (mkSearchResult (mkData [Some (mkRecord None None None)])) in
  searchForBook (Return ()) (λ _ _ _, Return (inr response))
                (λ _, Throw (new_Error "session expired")) "dune" "token" 1
  = Throw (new_Error "session expired").
Proof.
  intros response.
  eapply (searchForBook_fails_with_endSession _ _ _ _ _ response); reflexivity.
Defined.




(** The defaults of a display record: without items the title, the
    author and the subjects are 'Not available' and the year is NaN;
    the book type is the [PubType] of the header when it has one and 'Not
    available' otherwise; the locations are the copy list of the first
    holding alone, and empty when there is none. *)
Theorem transformToDisplayRecord_defaults record :
  ∃ d,
    transformToDisplayRecord (Some record) = Return d
    ∧ (Items record = None ∨ Items record = Some [] →
       title d = str "Not available" ∧ author d = str "Not available"
       ∧ subjects d = str "Not available" ∧ publicationYear d = None)
    ∧ (Header record = None → bookType d = str "Not available")
    ∧ (∀ h, Header record = Some h →
         bookType d = if truthy (PubType h) then PubType h
                      else str "Not available")
    ∧ (Holdings record = None ∨ Holdings record = Some [] →
       locationInformation d = [])
    ∧ (∀ h rest, Holdings record = Some (h :: rest) →
         locationInformation d
         = default [] (CopyInformationList (HoldingSimple h))).
Proof.
  destruct record as [items header holdings].
  destruct (transformToDisplayRecord_returns (mkRecord items header holdings))
    as (d & Hd).
  exists d. split; [done|]. unfold transformToDisplayRecord in Hd.
  change (Some (mkRecord items header holdings) ≫= Items) with items in Hd.
  destruct (extractPublicationYear (Some (default [] items)))
    as [year|e] eqn:Hyear; [|done].
  unfold bind in Hd. injection Hd as <-.
  cbn [title author subjects publicationYear bookType locationInformation
       Header Holdings Items].
  split; [|split; [|split; [|split]]].
  - intros [->| ->]; simpl in Hyear; injection Hyear as <-; by repeat split.
  - by intros ->.
  - by intros h ->.
  - by intros [->| ->].
  - intros h rest ->. unfold extractLocationInformation. simpl.
    by destruct (CopyInformationList _).
Qed.

Lemma transformToDisplayRecord_defaults_witness :
  transformToDisplayRecord (Some (mkRecord None None (Some [])))
  = Return (mkDisplayRecord (str "Not available") (str "Not available") None
                            (str "Not available") (str "Not available") []).
Proof.
  destruct (transformToDisplayRecord_defaults (mkRecord None None (Some [])))
    as (d & -> & Hitems & Hheader & _ & Hhold & _).
  destruct (Hitems (or_introl eq_refl)) as (Ht & Ha & Hs & Hy).
  specialize (Hheader eq_refl). specialize (Hhold (or_intror eq_refl)).
  destruct d. simpl in *. by subst.
Defined.

End EbscoProofs.

(* ===================================================================== *)
(** * Properties of the cancel-reservation tool                           *)
(* ===================================================================== *)

Module CancelReservationProofs.
Import Js CancelReservation.

(** C9 as stated fails: with a booking id in hand and the endpoint down,
    the tool does not return a message, it throws. *)
Lemma toolRunForLlm_throws_when_call_fails :
  ¬ absent (str "cs_123")
  ∧ ¬ ∃ text, (toolRunForLlm unreachable service (str "cs_123")).2 = Return text.
Proof.
  split.
  - intros [H|[H|[H|H]]]; discriminate H.
  - intros (text & H). vm_compute in H. discriminate H.
Qed.

(** C9, amended. Without a booking id the tool returns the request for it,
    calling nothing and throwing nothing.  With one it posts once to the
    cancel URL of that id: when the answer has a first entry it returns
    the success or the failure message of that entry; when the call fails
    or the answer is empty, the error is logged by [run], wrapped, logged
    again and thrown. *)
Theorem toolRunForLlm_cases post this bookingID :
  (absent bookingID →
     toolRunForLlm post this bookingID = ([], Return missing_bookingID))
  ∧ (¬ absent bookingID →
     let id := template bookingID in
     let url := CANCEL_URL this +:+ "/" +:+ id in
     let authorization := "Bearer " +:+ accessToken this in
     let wrapped e := new_Error (Error_toString e) in
     toolRunForLlm post this bookingID =
     match post url authorization with
     | Return (entry :: _) =>
         ([HttpPost url authorization],
          Return (if cancelled entry
                  then "Room reservation with ID: " +:+ id
                       +:+ " is cancelled successfully" +:+ nl
                  else "Room reservation with ID: " +:+ id
                       +:+ " is not cancelled successfully. Error message: "
                       +:+ template (error entry) +:+ nl))
     | Return [] =>
         let e := TypeError_reading "undefined" "cancelled" in
         ([HttpPost url authorization; LoggerError e; LoggerError (wrapped e)],
          Throw (wrapped e))
     | Throw e =>
         ([HttpPost url authorization; LoggerError e; LoggerError (wrapped e)],
          Throw (wrapped e))
     end).
Proof.
  unfold toolRunForLlm. split; intros Habs.
  - by rewrite decide_True.
  - rewrite decide_False by done. unfold run, http_post. simpl.
    destruct (post _ _) as [[|entry data]|e]; simpl; [done| |done].
    by destruct (cancelled entry).
Qed.

Lemma toolRunForLlm_cases_witness :
  toolRunForLlm unreachable service (str "undefined") = ([], Return missing_bookingID)
  ∧ (toolRunForLlm (λ _ _, Return [mkCancelEntry "cs_123" false (str "not found")])
                   service (str "cs_123")).2
    = Return ("Room reservation with ID: cs_123 is not cancelled successfully. Error message: not found" +:+ nl).
Proof.
  split.
  - apply (toolRunForLlm_cases unreachable service (str "undefined")).
    right. right. right. reflexivity.
  - destruct (toolRunForLlm_cases
                (λ _ _, Return [mkCancelEntry "cs_123" false (str "not found")])
                service (str "cs_123")) as (_ & Hpresent).
    rewrite Hpresent; [reflexivity|].
    intros [H|[H|[H|H]]]; discriminate H.
Defined.

(** ** Further properties of the tool *)

(** [run] posts exactly once, to the cancel URL of the booking with the
    bearer token.  It answers success with a null error or failure with
    the error of the first entry; otherwise it logs the cause once and
    throws a new error whose message is the text of the cause. *)
Theorem run_posts_once post service bookingID :
  ∃ rest outcome,
    run post service bookingID
    = (HttpPost (CANCEL_URL service +:+ "/" +:+ bookingID)
                ("Bearer " +:+ accessToken service) :: rest, outcome)
    ∧ match outcome with
      | Return r =>
          rest = []
          ∧ ∃ entry data,
              post (CANCEL_URL service +:+ "/" +:+ bookingID)
                   ("Bearer " +:+ accessToken service)
              = Return (entry :: data)
              ∧ success r = cancelled entry
              ∧ run_error r = if cancelled entry then null else error entry
      | Throw e =>
          ∃ cause, rest = [LoggerError cause]
                   ∧ e = new_Error (Error_toString cause)
      end.
Proof.
  unfold run, http_post. simpl.
  destruct (post _ _) as [[|entry data]|e] eqn:Hpost; simpl.
  - eexists _, _. split; [reflexivity|]. simpl. eexists. split; reflexivity.
  - destruct (cancelled entry) eqn:Hc; simpl;
      eexists _, _; (split; [reflexivity|]); simpl; (split; [done|]);
      exists entry, data; by rewrite Hc.
  - eexists _, _. split; [reflexivity|]. simpl. eexists. split; reflexivity.
Qed.

(** The tool calls LibCal at most once: never for a missing booking id,
    exactly once for any other, the empty string included. *)
Theorem toolRunForLlm_posts_at_most_once post service bookingID :
  length (List.filter is_post (toolRunForLlm post service bookingID).1)
  = if decide (absent bookingID) then 0 else 1.
Proof.
  unfold toolRunForLlm. destruct (decide (absent bookingID)); [done|].
  unfold run, http_post. simpl.
  destruct (post _ _) as [[|entry data]|e]; simpl; try done.
  by destruct (cancelled entry).
Qed.

(** A refusal without an [error] field is reported with the word
    'undefined' in the place of the error message. *)
Theorem refusal_without_error_says_undefined post service bookingID entry data :
  ¬ absent bookingID →
  post (CANCEL_URL service +:+ "/" +:+ template bookingID)
       ("Bearer " +:+ accessToken service) = Return (entry :: data) →
  cancelled entry = false → error entry = undefined →
  (toolRunForLlm post service bookingID).2
  = Return ("Room reservation with ID: " +:+ template bookingID
            +:+ " is not cancelled successfully. Error message: undefined"
            +:+ nl).
Proof.
  intros Habs Hpost Hc Herr. unfold toolRunForLlm.
  rewrite decide_False by done. unfold run, http_post. simpl.
  rewrite Hpost. simpl. rewrite Hc. simpl. by rewrite Herr.
Qed.

Lemma refusal_without_error_says_undefined_witness :
  (toolRunForLlm (λ _ _, Return [mkCancelEntry "cs_9" false undefined])
                 service (str EmptyString)).2
  = Return ("Room reservation with ID:  is not cancelled successfully. Error message: undefined" +:+ nl).
Proof.
  apply (refusal_without_error_says_undefined _ service (str EmptyString)
           (mkCancelEntry "cs_9" false undefined) []); try reflexivity.
  intros [H|[H|[H|H]]]; discriminate H.
Defined.

Lemma next_tokens_subscribed tokens : ∀ i,
  tokenSubscription i = true →
  foldl next i tokens
  = mkInstance (mkService (CANCEL_URL (this i))
                          (default (accessToken (this i)) (last tokens))) true.
Proof.
  induction tokens as [|token tokens IH]; intros [[url tok] sub] Hsub;
    simpl in *; subst sub; [done|].
  rewrite IH by done. simpl. rewrite last_cons. by destruct (last tokens).
Qed.

Lemma run_uses_latest_token post cancel_url tokens bookingID :
  ∃ rest,
    (run post (this (foldl next (constructor cancel_url) tokens)) bookingID).1
    = HttpPost (cancel_url +:+ "/" +:+ bookingID)
               ("Bearer " +:+ default EmptyString (last tokens)) :: rest.
Proof.
  rewrite next_tokens_subscribed by done. simpl.
  destruct (run_posts_once post
              (mkService cancel_url (default EmptyString (last tokens))) bookingID)
    as (rest & outcome & -> & _).
  by exists rest.
Qed.

Lemma destroyed_keeps_token i tokens :
  this (foldl next (onModuleDestroy i) tokens) = this i.
Proof.
  assert (∀ j, tokenSubscription j = false → foldl next j tokens = j) as Hfix.
  { induction tokens as [|token tokens IH]; intros j Hj; simpl; [done|].
    unfold next at 2. rewrite Hj. by apply IH. }
  by rewrite Hfix.
Qed.

(** The request carries the latest token: after the observable emitted
    [tokens] to a new service, [run] posts with the bearer of the last of
    them, and with an empty bearer if none came yet; once the module is
    destroyed the token no longer changes, whatever is emitted after. *)
Theorem token_follows_subscription post cancel_url tokens later bookingID :
  let i := foldl next (constructor cancel_url) tokens in
  (∃ rest,
     (run post (this i) bookingID).1
     = HttpPost (cancel_url +:+ "/" +:+ bookingID)
                ("Bearer " +:+ default EmptyString (last tokens)) :: rest)
  ∧ this (foldl next (onModuleDestroy i) later) = this i.
Proof.
  intros i. split.
  - apply run_uses_latest_token.
  - apply destroyed_keeps_token.
Qed.

End CancelReservationProofs.

(* ===================================================================== *)
(** * Properties of LlmService                                            *)
(* ===================================================================== *)

Module LlmProofs.
Import Js Promises Llm.

Section Service.

Context {TokenUsage : Type}.
Variable openaiApiService : LlmInterface TokenUsage.
Variable combineTokenUsage : TokenUsage → TokenUsage → TokenUsage.

Abbreviation getModelResponse :=
  (Llm.getModelResponse TokenUsage openaiApiService combineTokenUsage).

(** A model name outside the list never gets an answer, and no error
    either: the error is logged and thrown inside the executor, so the
    promise stays pending, and neither the prompt nor a model is asked. *)
Theorem unknown_model_never_settles
    (promptObject : Prompt TokenUsage) modelName temperature top_p :
  modelName ∉ openaiModelNameList →
  getModelResponse promptObject (Some modelName) temperature top_p
  = ([LoggerError ("No model name " +:+ modelName)], Pending).
Proof.
  intros Hnot. unfold Llm.getModelResponse, executor, getModel. simpl.
  by rewrite bool_decide_eq_false_2.
Qed.

(** [getModelResponse] never rejects.  It stays pending exactly when the
    model name is unknown, the prompt cannot be built, or the model call
    fails; in every other case it resolves. *)
Theorem getModelResponse_never_rejects
    (promptObject : Prompt TokenUsage) modelName temperature top_p :
  let name := default "gpt-4" modelName in
  let result := (getModelResponse promptObject modelName temperature top_p).2 in
  (∀ r, result ≠ Rejected r)
  ∧ (result = Pending ↔
     name ∉ openaiModelNameList
     ∨ (∃ e, getPrompt _ promptObject = Throw e)
     ∨ (∃ prompt usage e,
          getPrompt _ promptObject = Return (prompt, usage)
          ∧ openaiApiService
              (mkModelCall prompt (getSystemDescription _ promptObject)
                           (default zero temperature)
                           (default one_tenth top_p)) = Throw e)).
Proof.
  intros name result. subst name result.
  unfold Llm.getModelResponse, executor, getModel.
  case_bool_decide as Hname; simpl.
  - destruct (getPrompt _ promptObject) as [[prompt usage]|e] eqn:Hprompt; simpl.
    + destruct (openaiApiService _) as [[response usage']|e] eqn:Hcall; simpl.
      * split; [done|]. split; [done|].
        intros [?|[(e & ?)|(p & u & e & [= <- <-] & Hthrow)]]; try done.
        rewrite Hcall in Hthrow. discriminate Hthrow.
      * split; [done|]. split; [|done]. intros _. right. right.
        by exists prompt, usage, e.
    + split; [done|]. split; [|done]. intros _. right. left. by exists e.
  - split; [done|]. split; [|done]. intros _. by left.
Qed.

(** With a listed model name, or none (the default 'gpt-4' is listed), a
    prompt and an answer, the promise resolves with the answer of the
    model and the combined token usage, after one prompt request and one
    model call that carries the prompt, the system description and the
    given or default temperature and top_p. *)
Theorem getModelResponse_resolves
    (promptObject : Prompt TokenUsage) modelName temperature top_p
    prompt promptTokenUsage response responseTokenUsage :
  let c := mkModelCall prompt (getSystemDescription _ promptObject)
                       (default zero temperature) (default one_tenth top_p) in
  default "gpt-4" modelName ∈ openaiModelNameList →
  getPrompt _ promptObject = Return (prompt, promptTokenUsage) →
  openaiApiService c = Return (response, responseTokenUsage) →
  getModelResponse promptObject modelName temperature top_p
  = ([PromptAsked; ModelAsked c],
     Resolved (response, combineTokenUsage promptTokenUsage responseTokenUsage)).
Proof.
  intros c Hname Hprompt Hcall.
  unfold Llm.getModelResponse, executor, getModel.
  rewrite bool_decide_eq_true_2 by done. rewrite Hprompt. simpl.
  fold c. by rewrite Hcall.
Qed.

End Service.

Lemma unknown_model_never_settles_witness :
  Llm.getModelResponse nat (λ _, Return ("Hello", 7)) Nat.add
    (mkPrompt nat (Return ("Hi", 3)) "You are a librarian.")
    (Some "gpt-5") None None
  = ([LoggerError "No model name gpt-5"], Pending).
Proof.
  apply (unknown_model_never_settles (TokenUsage := nat)).
  intros Hin. repeat (apply elem_of_cons in Hin as [Hin|Hin]; [discriminate Hin|]).
  by apply not_elem_of_nil in Hin.
Defined.

Lemma getModelResponse_never_rejects_witness :
  (Llm.getModelResponse nat (λ _, Throw (new_Error "rate limit")) Nat.add
     (mkPrompt nat (Return ("Hi", 3)) "You are a librarian.")
     None None None).2 = Pending.
Proof.
  destruct (getModelResponse_never_rejects (TokenUsage := nat)
              (λ _, Throw (new_Error "rate limit")) Nat.add
              (mkPrompt nat (Return ("Hi", 3)) "You are a librarian.")
              None None None) as (_ & Hpending).
  apply Hpending. right. right. by exists "Hi", 3, (new_Error "rate limit").
Defined.

Lemma getModelResponse_resolves_witness :
  Llm.getModelResponse nat (λ _, Return ("Second floor.", 7)) Nat.add
    (mkPrompt nat (Return ("Where are the maps?", 3)) "You are a librarian.")
    None None None
  = ([PromptAsked;
      ModelAsked (mkModelCall "Where are the maps?" "You are a librarian."
                              zero one_tenth)],
     Resolved ("Second floor.", 10)).
Proof.
  apply (getModelResponse_resolves (TokenUsage := nat)
           (λ _, Return ("Second floor.", 7)) Nat.add
           (mkPrompt nat (Return ("Where are the maps?", 3)) "You are a librarian.")
           None None None "Where are the maps?" 3 "Second floor." 7);
    [|reflexivity..].
  simpl. do 5 right. left.
Defined.

End LlmProofs.

(* ===================================================================== *)
(** * Properties of OpenAIModel                                           *)
(* ===================================================================== *)

Module OpenAIModelProofs.
Import Js Promises OpenAIModel.

Section Model.

Context {Usage : Type}.
Variable createChatCompletion : Request → Outcome (Completion Usage).

Abbreviation getModelResponse :=
  (OpenAIModel.getModelResponse Usage createChatCompletion).

(** The request of a prompt, as [getModelResponse] builds it. *)
Let request temperature (promptObject : PromptTemplate) (prompt : string) :=
  mkRequest modelName temperature
    [("system", getSystemDescription promptObject); ("user", prompt)].

(** [getModelResponse] answers honestly: what it resolves with is a
    non-empty text, the only rejection is 'No response from model', and it
    asks the API at most once, for the fixed model with the system
    description followed by the prompt. *)
Theorem getModelResponse_settles_honestly temperature promptObject :
  let result := getModelResponse temperature promptObject in
  (∀ a, result.2 = Resolved a → ∃ s, response _ a = str s ∧ s ≠ EmptyString)
  ∧ (∀ r, result.2 = Rejected r → r = Text "No response from model")
  ∧ (result.1 = []
     ∨ ∃ prompt, getPrompt promptObject = Return prompt
                 ∧ result.1
                   = [ChatCompletion _ (request temperature promptObject prompt)]).
Proof.
  unfold OpenAIModel.getModelResponse.
  destruct (getPrompt promptObject) as [prompt|e]; simpl; [|by repeat split; [..|left]].
  split; [|split; [|right; by exists prompt]].
  - destruct (createChatCompletion _) as [c|e]; simpl; [|done].
    destruct (choices _ c !! 0%nat) as [choice|]; simpl; [|done].
    destruct (truthy _) eqn:Htruthy; simpl; [|done].
    intros a [= <-]. simpl.
    destruct (message choice) as [[[| |[|ch s]]]|]; try done. by eexists.
  - destruct (createChatCompletion _) as [c|e]; simpl; [|done].
    destruct (choices _ c !! 0%nat) as [choice|]; simpl; [|done].
    destruct (truthy _); simpl; [done|]. by intros r [= <-].
Qed.

(** A failure leaves the caller waiting for ever: when the prompt cannot
    be built, the API call fails or the completion has no choice, the
    promise is neither resolved nor rejected. *)
Theorem getModelResponse_hangs_on_failure temperature promptObject :
  (∀ e, getPrompt promptObject = Throw e →
     getModelResponse temperature promptObject = ([], Pending))
  ∧ (∀ prompt e,
       getPrompt promptObject = Return prompt →
       createChatCompletion (request temperature promptObject prompt) = Throw e →
       (getModelResponse temperature promptObject).2 = Pending)
  ∧ (∀ prompt c,
       getPrompt promptObject = Return prompt →
       createChatCompletion (request temperature promptObject prompt) = Return c →
       choices _ c = [] →
       (getModelResponse temperature promptObject).2 = Pending).
Proof.
  unfold OpenAIModel.getModelResponse, request. repeat split.
  - by intros e ->.
  - intros prompt e -> Hcall. simpl. by rewrite Hcall.
  - intros prompt c -> Hcall Hnone. simpl. rewrite Hcall. simpl. by rewrite Hnone.
Qed.

Variable Cache : Type.
Variable cache_get : Cache → string → Outcome (option (Answer Usage)).
Variable cache_set : Cache → string → Answer Usage → Cache * Outcome unit.

Abbreviation getModelResponseWithCache :=
  (OpenAIModel.getModelResponseWithCache Usage createChatCompletion
     Cache cache_get cache_set).

(** On a miss the answer of the model is stored under the text of the
    prompt and returned; when the model gives no answer the cache is not
    written and the caller gets the same rejection, or waits for ever. *)
Theorem cache_miss_stores_answer temperature prompt cache :
  cache_get cache (toString prompt) = Return None →
  let key := toString prompt in
  let '(t, p) := getModelResponse temperature prompt in
  match p with
  | Resolved a =>
      ∀ cache', cache_set cache key a = (cache', Return ()) →
        getModelResponseWithCache temperature prompt cache
        = (cache', CacheGet _ key :: t ++ [CacheSet _ key a], Resolved a)
  | p => getModelResponseWithCache temperature prompt cache
         = (cache, CacheGet _ key :: t, p)
  end.
Proof.
  intros Hmiss key. unfold OpenAIModel.getModelResponseWithCache. rewrite Hmiss.
  destruct (OpenAIModel.getModelResponse _ _ _ _) as [t [a|r|]]; try done.
  intros cache' Hset. fold key. by rewrite Hset.
Qed.

(** What was answered once is answered again from the cache: with a cache
    that gives back what was set, after a call that resolved, the same
    prompt resolves to the same answer without asking the API and without
    changing the cache. *)
Theorem cache_round_trip temperature prompt cache cache1 t1 a :
  (∀ c k v c', cache_set c k v = (c', Return ()) →
               cache_get c' k = Return (Some v)) →
  getModelResponseWithCache temperature prompt cache = (cache1, t1, Resolved a) →
  getModelResponseWithCache temperature prompt cache1
  = (cache1, [CacheGet _ (toString prompt)], Resolved a).
Proof.
  intros Hlaw. unfold OpenAIModel.getModelResponseWithCache.
  destruct (cache_get cache (toString prompt)) as [[hit|]|e] eqn:Hget.
  - intros [= <- _ <-]. by rewrite Hget.
  - destruct (OpenAIModel.getModelResponse _ _ _ _) as [t [a'|r|]]; try done.
    destruct (cache_set cache (toString prompt) a') as [cache' [[]|e]] eqn:Hset;
      [|done].
    intros [= <- _ <-]. by rewrite (Hlaw _ _ _ _ Hset).
  - done.
Qed.

End Model.

Lemma getModelResponse_settles_honestly_witness :
  ∃ r,
    (OpenAIModel.getModelResponse nat
       (λ _, Return (mkCompletion nat [mkChoice (Some (mkChatMessage (str EmptyString)))] 12))
       (QArith_base.Qmake 0 1)
       (mkPromptTemplate (Return "Where are the maps?") "You are a librarian." "key")).2
    = Rejected r
    ∧ r = Text "No response from model".
Proof.
  destruct (getModelResponse_settles_honestly (Usage := nat)
     (λ _, Return (mkCompletion nat [mkChoice (Some (mkChatMessage (str EmptyString)))] 12))
     (QArith_base.Qmake 0 1)
     (mkPromptTemplate (Return "Where are the maps?") "You are a librarian." "key"))
    as (_ & Hrej & _).
  eexists. split; [reflexivity|]. apply Hrej. reflexivity.
Defined.

Lemma getModelResponse_hangs_on_failure_witness :
  (OpenAIModel.getModelResponse nat (λ _, Throw (new_Error "401"))
     (QArith_base.Qmake 0 1)
     (mkPromptTemplate (Return "Where are the maps?") "You are a librarian." "key")).2
  = Pending.
Proof.
  destruct (getModelResponse_hangs_on_failure (Usage := nat)
     (λ _, Throw (new_Error "401")) (QArith_base.Qmake 0 1)
     (mkPromptTemplate (Return "Where are the maps?") "You are a librarian." "key"))
    as (_ & Hthrow & _).
  by apply (Hthrow "Where are the maps?" (new_Error "401")).
Defined.

Lemma cache_miss_stores_answer_witness :
  OpenAIModel.getModelResponseWithCache nat
    (λ _, Return (mkCompletion nat [mkChoice (Some (mkChatMessage (str "Second floor.")))] 12))
    _ store_get store_set (QArith_base.Qmake 0 1)
    (mkPromptTemplate (Return "Where are the maps?") "You are a librarian." "key") []
  = ([("key", mkAnswer nat (str "Second floor.") 12)],
     [CacheGet nat "key";
      ChatCompletion nat (mkRequest "gpt-4-0613" (QArith_base.Qmake 0 1)
                            [("system", "You are a librarian.");
                             ("user", "Where are the maps?")]);
      CacheSet nat "key" (mkAnswer nat (str "Second floor.") 12)],
     Resolved (mkAnswer nat (str "Second floor.") 12)).
Proof.
  apply (cache_miss_stores_answer (Usage := nat)
    (λ _, Return (mkCompletion nat [mkChoice (Some (mkChatMessage (str "Second floor.")))] 12))
    _ store_get store_set (QArith_base.Qmake 0 1)
    (mkPromptTemplate (Return "Where are the maps?") "You are a librarian." "key") []);
    reflexivity.
Defined.

Lemma cache_round_trip_witness :
  let create : Request → Outcome (Completion nat) :=
    λ _, Return (mkCompletion nat [mkChoice (Some (mkChatMessage (str "Second floor.")))] 12) in
  let prompt :=
    mkPromptTemplate (Return "Where are the maps?") "You are a librarian." "key" in
  OpenAIModel.getModelResponseWithCache nat create _ store_get store_set
    (QArith_base.Qmake 0 1) prompt [("key", mkAnswer nat (str "Second floor.") 12)]
  = ([("key", mkAnswer nat (str "Second floor.") 12)], [CacheGet nat "key"],
     Resolved (mkAnswer nat (str "Second floor.") 12)).
Proof.
  intros create prompt.
  eapply (cache_round_trip (Usage := nat) create _ store_get store_set
            (QArith_base.Qmake 0 1) prompt []).
  - intros c k v c' [= <-]. unfold store_get. simpl.
    by rewrite bool_decide_eq_true_2.
  - reflexivity.
Defined.

End OpenAIModelProofs.

(* ===================================================================== *)
(** * Properties of the earlier socket provider                           *)
(* ===================================================================== *)

Module LegacyClientProofs.
Import LegacyClient.

Lemma register_callbacks sk :
  Client.callbacks (register sk) = Client.callbacks sk ++ registered.
Proof. unfold register, Client.on. simpl. by rewrite <- !app_assoc. Qed.

Lemma filter_keep_connect event n :
  event ≠ "connect" →
  filter (λ c : string * Client.Handler, c.1 ≠ event) (replicate n connect_listener)
  = replicate n connect_listener.
Proof.
  intros Hne. induction n as [|n IH]; simpl; [done|].
  rewrite filter_cons_True by (simpl; congruence). by rewrite IH.
Qed.

Lemma filter_connect n :
  filter (λ c : string * Client.Handler, c.1 = "connect") (replicate n connect_listener)
  = replicate n connect_listener.
Proof.
  induction n as [|n IH]; simpl; [done|].
  rewrite filter_cons_True by done. by rewrite IH.
Qed.

Lemma filter_other event n :
  event ≠ "connect" →
  filter (λ c : string * Client.Handler, c.1 = event) (replicate n connect_listener)
  = [].
Proof.
  intros Hne. induction n as [|n IH]; simpl; [done|].
  rewrite filter_cons_False by (simpl; congruence). exact IH.
Qed.

Lemma off_registered :
  filter (λ c : string * Client.Handler, c.1 ≠ "connect_timeout")
    (filter (λ c : string * Client.Handler, c.1 ≠ "connect_error")
       (filter (λ c : string * Client.Handler, c.1 ≠ "disconnect")
          (filter (λ c : string * Client.Handler, c.1 ≠ "message") registered)))
  = [connect_listener].
Proof. reflexivity. Qed.

Lemma cleanup_registered n s :
  Registered n s →
  ∃ s' sk', cleanup s = Some s' ∧ socket s' = Some sk'
            ∧ Client.callbacks sk' = replicate (S n) connect_listener
            ∧ view s' = view s.
Proof.
  intros (sk & Hs & Hc). unfold cleanup. rewrite Hs. simpl.
  eexists _, _. split; [done|]. split; [done|]. split; [|done].
  unfold Client.off. cbn [Client.callbacks].
  rewrite Hc, !filter_app, !filter_keep_connect by done.
  rewrite off_registered.
  change (connect_listener :: replicate n connect_listener)
    with (replicate (S n) connect_listener).
  by rewrite replicate_S_end.
Qed.

Lemma rerun_registered n s :
  Registered n s →
  ∃ s', rerun s = Some s' ∧ Registered (S n) s' ∧ view s' = view s.
Proof.
  intros Hreg. unfold rerun.
  destruct (cleanup_registered n s Hreg) as (s1 & sk1 & -> & Hs1 & Hc1 & Hv1).
  simpl. unfold useEffect. rewrite Hs1. simpl.
  eexists. split; [done|]. split; [|by rewrite <- Hv1; destruct s1].
  exists (register sk1). split; [done|]. by rewrite register_callbacks, Hc1.
Qed.

(** The first run of the effect creates the socket and registers no
    listener: until the effect runs again no inbound event changes
    anything the interface can see, so no welcome message is shown and
    [isConnected] stays false. *)
Theorem first_run_hears_nothing evs s :
  socket s = None →
  (useEffect s).2 = false
  ∧ ∃ s', run evs (useEffect s).1 = Some s' ∧ view s' = view s.
Proof.
  intros Hs. unfold useEffect. rewrite Hs. simpl. split; [done|].
  assert (∀ s0 sk, socket s0 = Some sk → Client.callbacks sk = [] →
            ∃ s', run evs s0 = Some s' ∧ view s' = view s0) as Hquiet.
  { induction evs as [|ev evs IH]; intros s0 sk Hs0 Hc; simpl; [by exists s0|].
    unfold deliver. rewrite Hs0. simpl.
    set (sk' := match ev with
                | EvConnect => Client.set_connected true sk
                | EvDisconnect _ => Client.set_connected false sk
                | _ => sk
                end).
    assert (Client.callbacks sk' = []) as Hc' by (by destruct ev).
    assert (Client.listeners (event_name ev) sk' = []) as ->.
    { unfold Client.listeners. by rewrite Hc'. }
    simpl.
    destruct (IH (set_socket (Some sk') s0) sk' eq_refl Hc') as (s' & Hr & Hv).
    exists s'. split; [exact Hr|]. rewrite Hv. by destruct s0. }
  destruct (Hquiet (set_socket (Some Client.io) s) Client.io) as (s' & Hr & Hv);
    [done..|].
  exists s'. split; [done|]. rewrite Hv. by destruct s.
Qed.

Lemma first_run_hears_nothing_witness :
  ∃ s', run [EvConnect; EvMessage "Hello"] (useEffect (initial [] false None)).1
        = Some s'
        ∧ view s' = view (initial [] false None).
Proof.
  apply (first_run_hears_nothing [EvConnect; EvMessage "Hello"]
           (initial [] false None)).
  reflexivity.
Defined.

Lemma first_rerun s :
  socket s = None →
  ∃ s', rerun (useEffect s).1 = Some s' ∧ Registered 0 s' ∧ view s' = view s.
Proof.
  intros Hs. unfold useEffect. rewrite Hs. simpl.
  eexists. split; [reflexivity|]. split; [|by destruct s].
  eexists. split; [reflexivity|]. reflexivity.
Qed.

Lemma reruns_registered n : ∀ m s,
  Registered m s →
  ∃ s', reruns n s = Some s' ∧ Registered (n + m) s' ∧ view s' = view s.
Proof.
  induction n as [|n IH]; intros m s Hreg; simpl; [by exists s|].
  destruct (rerun_registered m s Hreg) as (s1 & -> & Hreg1 & Hv1). simpl.
  destruct (IH (S m) s1 Hreg1) as (s' & Hr & Hreg' & Hv').
  exists s'. split; [done|]. split; [|congruence].
  by replace (S (n + m)) with (n + S m) by lia.
Qed.

(** The 'connect' listeners pile up: the cleanup never detaches them, so
    after the first run and [n + 1] further runs of the effect the socket
    carries [n + 1] 'connect' listeners and one listener for each other
    event. *)
Theorem connect_listeners_accumulate n s :
  socket s = None →
  ∃ s' sk,
    reruns (S n) (useEffect s).1 = Some s' ∧ socket s' = Some sk
    ∧ Client.listeners "connect" sk = replicate (S n) Client.HConnect
    ∧ Client.listeners "message" sk = [Client.HMessage]
    ∧ Client.listeners "disconnect" sk = [Client.HDisconnect]
    ∧ Client.listeners "connect_error" sk = [Client.HConnectError]
    ∧ Client.listeners "connect_timeout" sk = [Client.HConnectTimeout]
    ∧ view s' = view s.
Proof.
  intros Hs. simpl.
  destruct (first_rerun s Hs) as (s1 & -> & Hreg1 & Hv1). simpl.
  destruct (reruns_registered n 0 s1 Hreg1) as (s' & Hr & (sk & Hsk & Hc) & Hv').
  exists s', sk. split; [done|]. split; [done|].
  unfold Client.listeners. rewrite Hc, !filter_app, filter_connect.
  rewrite !filter_other by done. rewrite Nat.add_0_r.
  repeat split; try congruence.
  rewrite fmap_app, fmap_replicate. simpl. by rewrite <- replicate_S_end.
Qed.

Lemma connect_listeners_accumulate_witness :
  ∃ s' sk,
    reruns 3 (useEffect (initial [] false None)).1 = Some s'
    ∧ socket s' = Some sk
    ∧ Client.listeners "connect" sk
      = [Client.HConnect; Client.HConnect; Client.HConnect].
Proof.
  destruct (connect_listeners_accumulate 2 (initial [] false None) eq_refl)
    as (s' & sk & Hr & Hs & Hl & _).
  by exists s', sk.
Defined.

Lemma on_connect_idempotent s : on_connect (on_connect s) = on_connect s.
Proof.
  unfold on_connect. destruct (firstSession s) eqn:Hfirst; simpl; [done|].
  by rewrite Hfirst.
Qed.

Lemma call_all_connect n s :
  call_all (replicate (S n) Client.HConnect) EvConnect s = Some (on_connect s).
Proof.
  induction n as [|n IH]; [done|].
  rewrite replicate_S_end, <- replicate_cons_app.
  change (call_all (Client.HConnect :: replicate (S n) Client.HConnect) EvConnect s)
    with (call_all (replicate (S n) Client.HConnect) EvConnect (on_connect s)).
  clear IH. revert s. induction n as [|n IH]; intros s; simpl.
  - by rewrite on_connect_idempotent.
  - simpl in IH. rewrite on_connect_idempotent. apply IH.
Qed.

(** However many 'connect' listeners have piled up, the first 'connect'
    of a session appends the welcome message once: the first listener
    clears [firstSession] and the others find it cleared. *)
Theorem stacked_connect_welcomes_once n s :
  Registered n s → firstSession s = true →
  ∃ s', deliver EvConnect s = Some s'
        ∧ messages s' = messages s ++ [Client.welcomeMessage]
        ∧ firstSession s' = false ∧ isConnected s' = true
        ∧ Registered n s'.
Proof.
  intros (sk & Hs & Hc) Hfirst. unfold deliver. rewrite Hs. simpl.
  assert (Client.listeners "connect" (Client.set_connected true sk)
          = replicate (S n) Client.HConnect) as ->.
  { unfold Client.listeners. simpl. rewrite Hc, filter_app, filter_connect.
    rewrite fmap_app, fmap_replicate. simpl. by rewrite <- replicate_S_end. }
  rewrite call_all_connect. eexists. split; [done|].
  unfold on_connect. simpl. rewrite Hfirst. simpl.
  repeat split. by exists (Client.set_connected true sk).
Qed.

Lemma stacked_connect_welcomes_once_witness :
  ∃ s', deliver EvConnect
          (mkState [] false None
             (Some (Client.mkSocket (replicate 2 connect_listener ++ registered)
                                    false true []))
             true false false) = Some s'
        ∧ messages s' = [] ++ [Client.welcomeMessage]
        ∧ firstSession s' = false ∧ isConnected s' = true
        ∧ Registered 2 s'.
Proof.
  apply (stacked_connect_welcomes_once 2); [|reflexivity].
  eexists. split; reflexivity.
Defined.

(** The earlier provider has no reset: whatever the reason of a
    'disconnect', 'io client disconnect' included, the log, the typing
    flag and [firstSession] are kept, and the instance is marked
    disconnected and attempted. *)
Theorem legacy_disconnect_never_resets n s reason :
  Registered n s →
  ∃ s', deliver (EvDisconnect reason) s = Some s'
        ∧ messages s' = messages s ∧ isTyping s' = isTyping s
        ∧ firstSession s' = firstSession s
        ∧ isConnected s' = false ∧ attemptedConnection s' = true.
Proof.
  intros (sk & Hs & Hc). unfold deliver. rewrite Hs. simpl.
  assert (Client.listeners "disconnect" (Client.set_connected false sk)
          = [Client.HDisconnect]) as ->.
  { unfold Client.listeners. simpl.
    by rewrite Hc, filter_app, filter_other. }
  by eexists.
Qed.

Lemma legacy_disconnect_never_resets_witness :
  ∃ s', deliver (EvDisconnect "io client disconnect")
          (mkState [Client.welcomeMessage] true None
             (Some (register Client.io)) false true true) = Some s'
        ∧ messages s' = [Client.welcomeMessage] ∧ isTyping s' = true
        ∧ firstSession s' = false
        ∧ isConnected s' = false ∧ attemptedConnection s' = true.
Proof.
  apply (legacy_disconnect_never_resets 0).
  exists (register Client.io). by split.
Defined.

End LegacyClientProofs.
